(** * Counterflow twin premixed flame notebooks: post-processing functions

    A shallow embedding of the Python code cells of the two notebooks

      - [src/flames/twinPremixedESR.ipynb]  (module [TwinPremixedESR] below)
      - [src/unnamed/part_000]              (module [ExtinctionStrainRate] below)

    Numbers.  The notebooks compute on the [float64] arrays of the flame
    object.  Here a [float64] number is an exact rational ([Q]): rounding
    and overflow are not modelled, and an integer converts to [float64]
    without error.  Where numpy would go on with [inf] or
    [nan] (a division by zero only gives a RuntimeWarning there) the rational
    model has no value to go on with and stops with [Beyond NonFinite]; no
    theorem speaks about what the code does after that point.

    Element types.  [derivative] makes its result with the element type of
    its argument [y] ([np.zeros(y.shape, y.dtype.type)]), so what it stores
    depends on that type.  Arrays of numpy's two default element types are
    modelled: [float64] (items in [Q]) and [int64] (items in [Z], the
    subtraction wrapping around at 64 bits).  A value stored into an [int64]
    array is cut to an integer, towards zero; numpy leaves the result of
    cutting a number outside the 64-bit range to the platform, and the model
    stops there with [Beyond CastOutOfRange].

    Arrays of the flame object are lists of [Q] (the mole fractions, a list
    of rows).  An index is a [Z] where the source writes a literal that may
    be negative ([y[-1]]) and a [nat] where it is a counter or the result of
    [argmax]/[argmin]. *)

From Stdlib Require Import String Bool ZArith QArith Qabs Lia Lqa List Sorted.
Import ListNotations.

Local Open Scope Q_scope.

(** ** Outcomes of running a piece of Python *)

(** The exceptions the modelled code can raise.  [External] stands for
    whatever the combustion library raises (its [CanteraError]). *)
Inductive exn : Type :=
| IndexError
| ValueError
| External (what : string).

(** The places where the model, not the program, stops. *)
Inductive limit : Type :=
| NonFinite       (* numpy continues with inf or nan *)
| CastOutOfRange  (* numpy stores a platform-dependent integer *)
| FuelExhausted.  (* the bound on loop iterations was reached *)

Inductive outcome (A : Type) : Type :=
| Ok (a : A)
| Raise (e : exn)
| Beyond (l : limit).

Arguments Ok {A} a.
Arguments Raise {A} e.
Arguments Beyond {A} l.

Definition bind {A B : Type} (c : outcome A) (k : A -> outcome B) : outcome B :=
  match c with
  | Ok a => k a
  | Raise e => Raise e
  | Beyond l => Beyond l
  end.

Declare Scope py_scope.
Delimit Scope py_scope with py.
Notation "x <- c ;; k" := (bind c (fun x => k))
  (at level 61, c at next level, right associativity) : py_scope.
Notation "' pat <- c ;; k" := (bind c (fun x => match x with pat => k end))
  (at level 61, pat pattern, c at next level, right associativity) : py_scope.
Local Open Scope py_scope.

Fixpoint mapM {A B : Type} (f : A -> outcome B) (l : list A) : outcome (list B) :=
  match l with
  | [] => Ok []
  | a :: t => b <- f a ;; bs <- mapM f t ;; Ok (b :: bs)
  end.

(** ** Python: comparisons, indexing, [max], [min] *)

Module py.

(** [a > b] and [a < b] on numbers. *)
Definition gt (a b : Q) : bool :=
  match a ?= b with Gt => true | _ => false end.
Definition lt (a b : Q) : bool :=
  match a ?= b with Lt => true | _ => false end.

(** Scalar division [a / b] of two [float64] values. *)
Definition div (a b : Q) : outcome Q :=
  if Qeq_bool b 0 then Beyond NonFinite else Ok (a / b).

(** The position a (possibly negative) index denotes in a sequence of
    length [n], or [IndexError]. *)
Definition position (n : nat) (i : Z) : outcome nat :=
  let j := if (i <? 0)%Z then (i + Z.of_nat n)%Z else i in
  if ((0 <=? j) && (j <? Z.of_nat n))%Z then Ok (Z.to_nat j)
  else Raise IndexError.

(** [a[i]] *)
Definition getitem (a : list Q) (i : Z) : outcome Q :=
  p <- position (length a) i ;; Ok (nth p a 0).

Fixpoint update (a : list Q) (p : nat) (v : Q) : list Q :=
  match a, p with
  | [], _ => []
  | _ :: t, O => v :: t
  | x :: t, S p' => x :: update t p' v
  end.

(** [a[i] = v] *)
Definition setitem (a : list Q) (i : Z) (v : Q) : outcome (list Q) :=
  p <- position (length a) i ;; Ok (update a p v).

(** [a[:k]] for a non-negative [k]. *)
Definition upto (a : list Q) (k : nat) : list Q := firstn k a.

(** The builtin [max]: the first of the largest items. *)
Fixpoint max_from (best : Q) (l : list Q) : Q :=
  match l with
  | [] => best
  | x :: t => max_from (if gt x best then x else best) t
  end.
Definition max (l : list Q) : outcome Q :=
  match l with
  | [] => Raise ValueError
  | x :: t => Ok (max_from x t)
  end.

(** The builtin [min]: the first of the smallest items. *)
Fixpoint min_from (best : Q) (l : list Q) : Q :=
  match l with
  | [] => best
  | x :: t => min_from (if lt x best then x else best) t
  end.
Definition min (l : list Q) : outcome Q :=
  match l with
  | [] => Raise ValueError
  | x :: t => Ok (min_from x t)
  end.

End py.

(** ** numpy: the array operations the notebooks call *)

Module np.

(** [np.zeros(shape)] for a one-dimensional shape. *)
Definition zeros (n : nat) : list Q := repeat 0 n.

(** [np.diff(a)]: [out[i] = a[i+1] - a[i]]. *)
Fixpoint diff (a : list Q) : list Q :=
  match a with
  | x0 :: ((x1 :: _) as t) => (x1 - x0) :: diff t
  | _ => []
  end.

(** Broadcasting of two one-dimensional operands: equal lengths pair up, a
    length-one operand is stretched, anything else is a [ValueError]. *)
Definition broadcast (a b : list Q) : outcome (list (Q * Q)) :=
  if (length a =? length b)%nat then Ok (combine a b)
  else match a, b with
       | [x], _ => Ok (map (fun y => (x, y)) b)
       | _, [y] => Ok (map (fun x => (x, y)) a)
       | _, _ => Raise ValueError
       end.

(** [a + b], [a * b] and [a / b] on arrays. *)
Definition add (a b : list Q) : outcome (list Q) :=
  p <- broadcast a b ;; Ok (map (fun xy => fst xy + snd xy) p).
Definition multiply (a b : list Q) : outcome (list Q) :=
  p <- broadcast a b ;; Ok (map (fun xy => fst xy * snd xy) p).
Definition divide (a b : list Q) : outcome (list Q) :=
  p <- broadcast a b ;; mapM (fun xy => py.div (fst xy) (snd xy)) p.

(** [abs(a)] on an array. *)
Definition absolute (a : list Q) : list Q := map Qabs a.

(** [a[0:-1] = v]: the slice holds all but the last item of [a]; [v] must
    have that length or length one. *)
Definition set_init (a v : list Q) : outcome (list Q) :=
  let k := (length a - 1)%nat in
  if (length v =? k)%nat then Ok (v ++ skipn k a)
  else match v with
       | [c] => Ok (repeat c k ++ skipn k a)
       | _ => Raise ValueError
       end.

(** [a.sum()] *)
Definition sum (a : list Q) : Q := fold_left Qplus a 0.

(** [a.argmax()]: the first index of a largest item. *)
Fixpoint argmax_from (best : Q) (bi i : nat) (l : list Q) : nat :=
  match l with
  | [] => bi
  | x :: t => if py.gt x best then argmax_from x i (S i) t
              else argmax_from best bi (S i) t
  end.
Definition argmax (a : list Q) : outcome nat :=
  match a with
  | [] => Raise ValueError
  | x :: t => Ok (argmax_from x 0 1 t)
  end.

(** [a.argmin()]: the first index of a smallest item. *)
Fixpoint argmin_from (best : Q) (bi i : nat) (l : list Q) : nat :=
  match l with
  | [] => bi
  | x :: t => if py.lt x best then argmin_from x i (S i) t
              else argmin_from best bi (S i) t
  end.
Definition argmin (a : list Q) : outcome nat :=
  match a with
  | [] => Raise ValueError
  | x :: t => Ok (argmin_from x 0 1 t)
  end.

(** [np.max(a)] *)
Definition max (a : list Q) : outcome Q :=
  match a with
  | [] => Raise ValueError
  | x :: t => Ok (py.max_from x t)
  end.

(** [np.trapz(y, x)]:
    [d = diff(x); (d * (y[1:] + y[:-1]) / 2.0).sum()]. *)
Definition trapz (y x : list Q) : outcome Q :=
  let d := diff x in
  s <- add (skipn 1 y) (removelast y) ;;
  m <- multiply d s ;;
  Ok (sum (map (fun v => v / 2) m)).

End np.

(** ** numpy arrays of either element type *)

(** The operations of [np] above are those on [float64] data, a list of
    [Q]; the operations of [nd] below take the arrays with their element
    type, and are the ones [derivative] is written with. *)
Inductive dtype : Type := float64 | int64.

(** A one-dimensional array with its element type. *)
Inductive ndarray : Type :=
| Float64 (items : list Q)
| Int64 (items : list Z).

(** An array scalar, [np.float64] or [np.int64]. *)
Inductive scalar : Type :=
| Float (v : Q)
| Int (v : Z).

(** The items of an array as numbers; an array is read as its items where
    an operation on [float64] data is applied to it. *)
Definition values (a : ndarray) : list Q :=
  match a with
  | Float64 l => l
  | Int64 l => map inject_Z l
  end.
Coercion values : ndarray >-> list.

Module nd.

(** [a.dtype.type] and [a.shape] *)
Definition dtype_of (a : ndarray) : dtype :=
  match a with Float64 _ => float64 | Int64 _ => int64 end.
Definition len (a : ndarray) : nat :=
  match a with Float64 l => length l | Int64 l => length l end.

Definition value (s : scalar) : Q :=
  match s with Float q => q | Int z => inject_Z z end.

(** The 64-bit two's complement range and the wrap-around into it. *)
Definition in_int64 (z : Z) : bool :=
  ((- 2 ^ 63 <=? z) && (z <? 2 ^ 63))%Z.
Definition wrap64 (z : Z) : Z := ((z + 2 ^ 63) mod 2 ^ 64 - 2 ^ 63)%Z.

(** Every item of an [int64] array is in range. *)
Definition wf (a : ndarray) : bool :=
  match a with Float64 _ => true | Int64 l => forallb in_int64 l end.

(** The conversion of a [float64] value stored into an [int64] array: the
    fraction is dropped. *)
Definition trunc (q : Q) : Z := Z.quot (Qnum q) (Z.pos (Qden q)).
Definition to_int64 (q : Q) : outcome Z :=
  let z := trunc q in
  if in_int64 z then Ok z else Beyond CastOutOfRange.
Definition astype_int64 (v : ndarray) : outcome (list Z) :=
  match v with
  | Int64 l => Ok l
  | Float64 l => mapM to_int64 l
  end.

(** [a - b] and [a / b] on two array scalars; [/] is true division (both
    notebooks import [division] from [__future__]) and gives a
    [np.float64]. *)
Definition sub (a b : scalar) : scalar :=
  match a, b with
  | Int x, Int y => Int (wrap64 (x - y))
  | _, _ => Float (value a - value b)
  end.
Definition div (a b : scalar) : outcome scalar :=
  q <- py.div (value a) (value b) ;; Ok (Float q).

(** [np.zeros(shape, dtype)] for a one-dimensional shape. *)
Definition zeros (n : nat) (t : dtype) : ndarray :=
  match t with
  | float64 => Float64 (repeat 0 n)
  | int64 => Int64 (repeat 0%Z n)
  end.

(** [np.diff(a)]: [out[i] = a[i+1] - a[i]], in the element type of [a]. *)
Fixpoint diff_int (a : list Z) : list Z :=
  match a with
  | x0 :: ((x1 :: _) as t) => wrap64 (x1 - x0) :: diff_int t
  | _ => []
  end.
Definition diff (a : ndarray) : ndarray :=
  match a with
  | Float64 l => Float64 (np.diff l)
  | Int64 l => Int64 (diff_int l)
  end.

(** [a / b] on arrays: true division, a [float64] array whatever the
    element types of [a] and [b]. *)
Definition true_divide (a b : ndarray) : outcome ndarray :=
  q <- np.divide a b ;; Ok (Float64 q).

(** [a[0:-1] = v]: the shapes are matched first, then the items of [v] are
    converted to the element type of [a] and stored. *)
Definition set_init (a v : ndarray) : outcome ndarray :=
  match a with
  | Float64 l => r <- np.set_init l v ;; Ok (Float64 r)
  | Int64 l =>
      let k := (length l - 1)%nat in
      if (len v =? k)%nat then
        zs <- astype_int64 v ;; Ok (Int64 (zs ++ skipn k l))
      else if (len v =? 1)%nat then
        zs <- astype_int64 v ;; Ok (Int64 (repeat (hd 0%Z zs) k ++ skipn k l))
      else Raise ValueError
  end.

(** [a[i]]: the item at a position, as an array scalar. *)
Definition item (a : ndarray) (p : nat) : scalar :=
  match a with
  | Float64 l => Float (nth p l 0)
  | Int64 l => Int (nth p l 0%Z)
  end.
Definition getitem (a : ndarray) (i : Z) : outcome scalar :=
  p <- py.position (len a) i ;; Ok (item a p).

Fixpoint update_int (a : list Z) (p : nat) (v : Z) : list Z :=
  match a, p with
  | [], _ => []
  | _ :: t, O => v :: t
  | x :: t, S p' => x :: update_int t p' v
  end.

(** [a[i] = v], the scalar converted to the element type of [a]. *)
Definition setitem (a : ndarray) (i : Z) (v : scalar) : outcome ndarray :=
  p <- py.position (len a) i ;;
  match a with
  | Float64 l => Ok (Float64 (py.update l p (value v)))
  | Int64 l =>
      z <- match v with Int z => Ok z | Float q => to_int64 q end ;;
      Ok (Int64 (update_int l p z))
  end.

End nd.

(** ** The functions both notebooks define with the same text *)

(** [derivative(x, y)]: differentiation for data with variable grid
    spacing. *)
Definition derivative (x y : ndarray) : outcome ndarray :=
  let dydx := nd.zeros (nd.len y) (nd.dtype_of y) in
  let dx := nd.diff x in
  let dy := nd.diff y in
  q <- nd.true_divide dy dx ;;
  dydx <- nd.set_init dydx q ;;
  y1 <- nd.getitem y (-1) ;;
  y2 <- nd.getitem y (-2) ;;
  x1 <- nd.getitem x (-1) ;;
  x2 <- nd.getitem x (-2) ;;
  last <- nd.div (nd.sub y1 y2) (nd.sub x1 x2) ;;
  nd.setitem dydx (-1) last.

(** The attributes of the flame object that the analysis functions read:
    the grid and the field arrays the solver leaves on it, all of them
    [float64] arrays. *)
Record Flame : Type := mkFlame {
  grid : list Q;
  u : list Q;
  T : list Q;
  density : list Q;
  heat_release_rate : list Q;
  cp : list Q
}.

(** [computeConsumptionSpeed(oppFlame)] *)
Definition computeConsumptionSpeed (oppFlame : Flame) : outcome Q :=
  Tb <- py.max (T oppFlame) ;;
  Tu <- py.min (T oppFlame) ;;
  rho_u <- py.max (density oppFlame) ;;
  integrand <- np.divide (heat_release_rate oppFlame) (cp oppFlame) ;;
  I <- np.trapz integrand (grid oppFlame) ;;
  q <- py.div I (Tb - Tu) ;;
  py.div q rho_u.

(** ** The external libraries and the flame object *)

(** The calls the notebooks make on Cantera, the file system, the output
    area and matplotlib, with their arguments. *)
Inductive Event : Type :=
| print_version
| ct_Solution (infile : string)
| gas_set_TPX (To Po : Q) (composition : string)
| gas_set_equivalence_ratio (phi : Q) (fuel : string)
                            (oxidizer : list (string * Q))
| gas_set_TP (To Po : Q)
| ct_CounterflowTwinPremixedFlame (width : Q)
| reactants_set_mdot (massFlux : Q)
| set_refine_criteria (ratio slope curve prune : Q)
| show_solution
| solve (loglevel : Z) (auto : bool)
| write_csv (filename : string) (quiet : bool)
| print (format : string) (value : Q)
| plt_rcParams (key value : string)
| plt_figure
| plt_plot (x y : list Q) (fmt : string) (lw : Q) (label : option string)
| plt_plot_point (x y : Q) (fmt : string)
| plt_xlim (lo hi : Q)
| plt_xlabel (text : string)
| plt_ylabel (text : string)
| plt_annotate (text : string) (xy xytext : Q * Q) (arrowstyle : string)
| plt_legend (loc : Z).

(** What lies outside the notebooks: a state [W] (the gas object, the one
    flame object, the files, the figures), what each call does to it, and
    the attributes the notebooks read back. *)
Record Externals (W : Type) : Type := mkExternals {
  call : Event -> W -> outcome unit * W;
  oppFlame : W -> Flame;
  gas_density : W -> Q;
  oppFlame_X : W -> list (list Q)
}.

Arguments call {W} _ _ _.
Arguments oppFlame {W} _ _.
Arguments gas_density {W} _ _.
Arguments oppFlame_X {W} _ _.

(** A run threads the external state and the list of calls made so far;
    what a step changed stays changed when a later step raises. *)
Definition M (W A : Type) : Type :=
  W * list Event -> outcome A * (W * list Event).

Definition ret {W A : Type} (a : A) : M W A := fun s => (Ok a, s).

Definition bindM {W A B : Type} (c : M W A) (k : A -> M W B) : M W B :=
  fun s =>
    match c s with
    | (Ok a, s') => k a s'
    | (Raise e, s') => (Raise e, s')
    | (Beyond l, s') => (Beyond l, s')
    end.

Notation "x <~ c ;; k" := (bindM c (fun x => k))
  (at level 61, c at next level, right associativity) : py_scope.
Notation "' pat <~ c ;; k" := (bindM c (fun x => match x with pat => k end))
  (at level 61, pat pattern, c at next level, right associativity) : py_scope.
Notation "c ;;; k" := (bindM c (fun _ => k))
  (at level 61, right associativity) : py_scope.

Definition perform {W : Type} (ext : Externals W) (ev : Event) : M W unit :=
  fun s =>
    let (r, w') := call ext ev (fst s) in (r, (w', snd s ++ [ev])).

Definition read {W A : Type} (g : W -> A) : M W A :=
  fun s => (Ok (g (fst s)), s).

Definition lift {W A : Type} (c : outcome A) : M W A := fun s => (c, s).

(** [solveOpposedFlame(oppFlame, massFlux, loglevel, ratio, slope, curve,
    prune)], the same text in both notebooks; it calls the notebook's own
    [computeStrainRates], which is an argument here and is filled in by each
    notebook's module. *)
Definition solveOpposedFlame_of {W : Type} (ext : Externals W)
    (computeStrainRates : Flame -> outcome (list Q * nat * Q))
    (massFlux : Q) (loglevel : Z) (ratio slope curve prune : Q)
  : M W (Q * Q * nat) :=
  perform ext (reactants_set_mdot massFlux) ;;;
  perform ext (set_refine_criteria ratio slope curve prune) ;;;
  perform ext show_solution ;;;
  perform ext (solve loglevel true) ;;;
  flame <~ read (oppFlame ext) ;;
  '(strainRates, strainRatePoint, K) <~ lift (computeStrainRates flame) ;;
  flame <~ read (oppFlame ext) ;;
  Tmax <~ lift (np.max (T flame)) ;;
  ret (Tmax, K, strainRatePoint).

(** The default values of its keyword arguments. *)
Definition default_massFlux : Q := 12 # 100.
Definition default_loglevel : Z := 0.
Definition default_ratio : Q := 2.
Definition default_slope : Q := 3 # 10.
Definition default_curve : Q := 3 # 10.
Definition default_prune : Q := 5 # 100.

(** The plotting preferences both notebooks set. *)
Definition plotting_preferences {W : Type} (ext : Externals W) : M W unit :=
  perform ext (plt_rcParams "figure.autolayout" "True") ;;;
  perform ext (plt_rcParams "axes.labelsize" "14") ;;;
  perform ext (plt_rcParams "xtick.labelsize" "12") ;;;
  perform ext (plt_rcParams "ytick.labelsize" "12") ;;;
  perform ext (plt_rcParams "legend.fontsize" "10") ;;;
  perform ext (plt_rcParams "figure.facecolor" "white") ;;;
  perform ext (plt_rcParams "figure.figsize" "(8,6)").

(** [a * 100] on an array. *)
Definition times100 (a : list Q) : list Q := map (fun v => v * 100) a.

(** [X[i]] on the two-dimensional array of mole fractions. *)
Definition row (X : list (list Q)) (i : nat) : outcome (list Q) :=
  match nth_error X i with
  | Some r => Ok r
  | None => Raise IndexError
  end.

(** The name of the external operation behind a call. *)
Definition name (ev : Event) : string :=
  match ev with
  | print_version => "print"
  | ct_Solution _ => "ct.Solution"
  | gas_set_TPX _ _ _ => "gas.TPX"
  | gas_set_equivalence_ratio _ _ _ => "gas.set_equivalence_ratio"
  | gas_set_TP _ _ => "gas.TP"
  | ct_CounterflowTwinPremixedFlame _ => "ct.CounterflowTwinPremixedFlame"
  | reactants_set_mdot _ => "oppFlame.reactants.mdot"
  | set_refine_criteria _ _ _ _ => "oppFlame.set_refine_criteria"
  | show_solution => "oppFlame.show_solution"
  | solve _ _ => "oppFlame.solve"
  | write_csv _ _ => "oppFlame.write_csv"
  | print _ _ => "print"
  | plt_rcParams _ _ => "plt.rcParams"
  | plt_figure => "plt.figure"
  | plt_plot _ _ _ _ _ => "plt.plot"
  | plt_plot_point _ _ _ => "plt.plot"
  | plt_xlim _ _ => "plt.xlim"
  | plt_xlabel _ => "plt.xlabel"
  | plt_ylabel _ => "plt.ylabel"
  | plt_annotate _ _ _ _ => "plt.annotate"
  | plt_legend _ => "plt.legend"
  end.

(** ** The two notebooks *)

Module TwinPremixedESR.

(** src/flames/twinPremixedESR.ipynb: the largest |strain rate| upstream
    of the velocity minimum that precedes the overall largest one.  The
    arrays of the flame object are [float64] arrays, and so is
    [strainRates]. *)
Definition computeStrainRates (oppFlame : Flame)
  : outcome (list Q * nat * Q) :=
  strainRates <-
    derivative (Float64 (grid oppFlame)) (Float64 (u oppFlame)) ;;
  maxStrLocation <- np.argmax (np.absolute strainRates) ;;
  minVelocityPoint <- np.argmin (py.upto (u oppFlame) maxStrLocation) ;;
  strainRatePoint <-
    np.argmax (np.absolute (py.upto strainRates minVelocityPoint)) ;;
  v <- py.getitem strainRates (Z.of_nat strainRatePoint) ;;
  let K := Qabs v in
  Ok (values strainRates, strainRatePoint, K).


Definition solveOpposedFlame {W : Type} (ext : Externals W) :=
  solveOpposedFlame_of ext computeStrainRates.

(** "Import modules" *)
Definition cell_import {W : Type} (ext : Externals W) : M W unit :=
  perform ext print_version.

(** "Define the reactant conditions, gas mixture and kinetic mechanism
    associated with the gas"; the cell leaves [massFlux]. *)
Definition cell_reactants {W : Type} (ext : Externals W) : M W Q :=
  let To := 300 in
  let Po := 101325 in
  perform ext (ct_Solution "gri30.cti") ;;;
  perform ext (gas_set_equivalence_ratio (75 # 100) "CH4"
                 [("O2"%string, 1); ("N2"%string, 376 # 100)]) ;;;
  perform ext (gas_set_TP To Po) ;;;
  let axial_velocity := 2 in
  rho <~ read (gas_density ext) ;;
  let massFlux := rho * axial_velocity in
  ret massFlux.

(** "Define a flame object, domain width and tranport model" *)
Definition cell_flame {W : Type} (ext : Externals W) : M W unit :=
  let width := 25 # 1000 in
  perform ext (ct_CounterflowTwinPremixedFlame width).

(** "Run the Solver"; the cell leaves [T], [K] and [strainRatePoint]. *)
Definition cell_run {W : Type} (ext : Externals W) (massFlux : Q)
  : M W (Q * Q * nat) :=
  r <~ solveOpposedFlame ext massFlux 1%Z
         default_ratio default_slope default_curve default_prune ;;
  perform ext (write_csv "premixed_twin_flame.csv" false) ;;;
  ret r.

Definition cell_report {W : Type} (ext : Externals W) (Tpeak K : Q)
  : M W Q :=
  flame <~ read (oppFlame ext) ;;
  Sc <~ lift (computeConsumptionSpeed flame) ;;
  perform ext (print "Peak temperature: {0:.1f} K" Tpeak) ;;;
  perform ext (print "Strain Rate: {0:.1f} 1/s" K) ;;;
  perform ext (print "Consumption Speed: {0:.2f} cm/s" (Sc * 100)) ;;;
  ret Sc.

(** "Axial velocity plot" *)
Definition cell_axial_velocity_plot {W : Type} (ext : Externals W)
    (strainRatePoint : nat) : M W unit :=
  let sp := Z.of_nat strainRatePoint in
  perform ext plt_figure ;;;
  flame <~ read (oppFlame ext) ;;
  perform ext (plt_plot (times100 (grid flame)) (u flame) "r-o" 2 None) ;;;
  flame <~ read (oppFlame ext) ;;
  lo <~ lift (py.getitem (grid flame) 0) ;;
  hi <~ lift (py.getitem (grid flame) (-1)) ;;
  perform ext (plt_xlim lo (hi * 100)) ;;;
  perform ext (plt_xlabel "Distance (cm)") ;;;
  perform ext (plt_ylabel "Axial Velocity (m/s)") ;;;
  flame <~ read (oppFlame ext) ;;
  gx <~ lift (py.getitem (grid flame) sp) ;;
  uy <~ lift (py.getitem (u flame) sp) ;;
  perform ext (plt_plot_point (gx * 100) uy "gs") ;;;
  flame <~ read (oppFlame ext) ;;
  ax <~ lift (py.getitem (grid flame) sp) ;;
  ay <~ lift (py.getitem (u flame) sp) ;;
  perform ext (plt_annotate "Strain-Rate point" (ax * 100, ay)
                 (1 # 1000, 1 # 10) "->").

(** "Temperature Plot" *)
Definition cell_temperature_plot {W : Type} (ext : Externals W)
  : M W unit :=
  perform ext plt_figure ;;;
  flame <~ read (oppFlame ext) ;;
  perform ext (plt_plot (times100 (grid flame)) (T flame) "b-s" 2 None) ;;;
  flame <~ read (oppFlame ext) ;;
  lo <~ lift (py.getitem (grid flame) 0) ;;
  hi <~ lift (py.getitem (grid flame) (-1)) ;;
  perform ext (plt_xlim lo (hi * 100)) ;;;
  perform ext (plt_xlabel "Distance (cm)") ;;;
  perform ext (plt_ylabel "Temperature (K)").

(** "Major Species' Plot" *)
Definition cell_species_plot {W : Type} (ext : Externals W) : M W unit :=
  X <~ read (oppFlame_X ext) ;;
  X_CH4 <~ lift (row X 13) ;;
  X_CO2 <~ lift (row X 15) ;;
  X_H2O <~ lift (row X 5) ;;
  perform ext plt_figure ;;;
  flame <~ read (oppFlame ext) ;;
  perform ext (plt_plot (times100 (grid flame)) X_CH4 "c-o" 2
                 (Some "$CH_{4}$"%string)) ;;;
  flame <~ read (oppFlame ext) ;;
  perform ext (plt_plot (times100 (grid flame)) X_CO2 "m-s" 2
                 (Some "$CO_{2}$"%string)) ;;;
  flame <~ read (oppFlame ext) ;;
  perform ext (plt_plot (times100 (grid flame)) X_H2O "g-<" 2
                 (Some "$H_{2}O$"%string)) ;;;
  flame <~ read (oppFlame ext) ;;
  lo <~ lift (py.getitem (grid flame) 0) ;;
  hi <~ lift (py.getitem (grid flame) (-1)) ;;
  perform ext (plt_xlim lo (hi * 100)) ;;;
  perform ext (plt_xlabel "Distance (cm)") ;;;
  perform ext (plt_ylabel "Mole Fractions") ;;;
  perform ext (plt_legend 2).

(** The cells from top to bottom. *)
Definition notebook {W : Type} (ext : Externals W) : M W unit :=
  cell_import ext ;;;
  massFlux <~ cell_reactants ext ;;
  cell_flame ext ;;;
  '(Tpeak, K, strainRatePoint) <~ cell_run ext massFlux ;;
  Sc <~ cell_report ext Tpeak K ;;
  plotting_preferences ext ;;;
  cell_axial_velocity_plot ext strainRatePoint ;;;
  cell_temperature_plot ext ;;;
  cell_species_plot ext.

End TwinPremixedESR.

Module ExtinctionStrainRate.

(** [while strainRates[n] > strainRates[n+1]: n += 1], started at [n] and
    run for at most [fuel] tests of the condition. *)
Fixpoint scan_while (fuel : nat) (strainRates : list Q) (n : nat)
  : outcome nat :=
  match fuel with
  | O => Beyond FuelExhausted
  | S fuel' =>
      a <- py.getitem strainRates (Z.of_nat n) ;;
      b <- py.getitem strainRates (Z.of_nat n + 1) ;;
      if py.gt a b then scan_while fuel' strainRates (S n) else Ok n
  end.

(** src/unnamed/part_000: the first point where the strain rate stops
    decreasing.  The arrays of the flame object are [float64] arrays, and so
    is [strainRates].  The loop is given one more test than the array has
    items; [scan_while_fuel] shows it never needs them all. *)
Definition computeStrainRates (oppFlame : Flame)
  : outcome (list Q * nat * Q) :=
  strainRates <-
    derivative (Float64 (grid oppFlame)) (Float64 (u oppFlame)) ;;
  n <- scan_while (S (length strainRates)) strainRates 0 ;;
  let strainRatePoint := n in
  v <- py.getitem strainRates (Z.of_nat n) ;;
  let K := Qabs v in
  Ok (values strainRates, strainRatePoint, K).


Definition solveOpposedFlame {W : Type} (ext : Externals W) :=
  solveOpposedFlame_of ext computeStrainRates.

(** "Import modules" *)
Definition cell_import {W : Type} (ext : Externals W) : M W unit :=
  perform ext print_version.

(** "User viriables: reactant conditions, kinetic mechanism, domain
    length"; the cell leaves [width] and [massFlux]. *)
Definition cell_user_variables {W : Type} (ext : Externals W)
  : M W (Q * Q) :=
  let To := 300 in
  let Po := 101325 in
  let composition := "CH4:0.75, O2:2, N2: 7.52"%string in
  perform ext (ct_Solution "gri30.cti") ;;;
  let width := 7 # 1000 in
  perform ext (gas_set_TPX To Po composition) ;;;
  let axial_velocity := 200 in
  rho <~ read (gas_density ext) ;;
  let massFlux := rho * axial_velocity * (1 # 100) in
  ret (width, massFlux).

(** "Run the Solver" *)
Definition cell_run {W : Type} (ext : Externals W) (width massFlux : Q)
  : M W (Q * Q * nat * Q) :=
  perform ext (ct_CounterflowTwinPremixedFlame width) ;;;
  '(Tpeak, K, strainRatePoint) <~
     solveOpposedFlame ext massFlux 0%Z
       default_ratio default_slope default_curve default_prune ;;
  perform ext (write_csv "premixed_twin_flame.csv" false) ;;;
  flame <~ read (oppFlame ext) ;;
  Sc <~ lift (computeConsumptionSpeed flame) ;;
  perform ext (print "Peak temperature: {0:.1f} K" Tpeak) ;;;
  perform ext (print "Strain Rate: {0:.1f} 1/s" K) ;;;
  perform ext (print "Consumption Speed: {0:.2f} cm/s" (Sc * 100)) ;;;
  ret (Tpeak, K, strainRatePoint, Sc).

(** The cells from top to bottom. *)
Definition notebook {W : Type} (ext : Externals W) : M W unit :=
  cell_import ext ;;;
  '(width, massFlux) <~ cell_user_variables ext ;;
  r <~ cell_run ext width massFlux ;;
  plotting_preferences ext.

End ExtinctionStrainRate.

(** ** Concrete inputs *)

(** A stand-in for the external libraries: every call succeeds and leaves
    the state alone, except [solve], which ends as [solved] says and, when it
    succeeds, puts the profile [after] on the flame object. *)
Definition stub (solved : outcome unit) (after : Flame) : Externals Flame :=
  {| call := fun ev w =>
       match ev with
       | solve _ _ => (solved, match solved with Ok _ => after | _ => w end)
       | _ => (Ok tt, w)
       end;
     oppFlame := fun w => w;
     gas_density := fun _ => 1;
     oppFlame_X := fun w => repeat (repeat 0 (length (grid w))) 16 |}.

Definition unsolved : Flame := mkFlame [] [] [] [] [] [].

(** A six-point profile: the velocity falls towards the flame, rises through
    it and levels off. *)
Definition profile6 : Flame :=
  {| grid := [0; 1; 2; 3; 4; 5];
     u := [10; 9; 7; 6; 14; 14];
     T := [300; 300; 400; 1500; 2000; 2000];
     density := [4; 4; 3; 2; 1; 1];
     heat_release_rate := [0; 0; 10; 40; 10; 0];
     cp := [1; 1; 1; 2; 2; 2] |}.

(** A cold flow: no flame, the velocity falls ever faster towards the
    stagnation plane and is zero there. *)
Definition cold_flow : Flame :=
  {| grid := [0; 1; 2; 3; 4; 5];
     u := [10; 9; 7; 4; 0; 0];
     T := [300; 300; 300; 300; 300; 300];
     density := [1; 1; 1; 1; 1; 1];
     heat_release_rate := [0; 0; 0; 0; 0; 0];
     cp := [1; 1; 1; 1; 1; 1] |}.

(** The velocity minimum lies two points after the point where the strain
    rate stops falling. *)
Definition late_minimum : Flame :=
  {| grid := [0; 1; 2; 3; 4; 5; 6; 7];
     u := [20; 19; 16; 14; 13; 14; 22; 22];
     T := [300; 300; 300; 300; 300; 300; 300; 300];
     density := [1; 1; 1; 1; 1; 1; 1; 1];
     heat_release_rate := [0; 0; 0; 0; 0; 0; 0; 0];
     cp := [1; 1; 1; 1; 1; 1; 1; 1] |}.

(** Four points whose forward differences decrease strictly. *)
Definition falling : Flame :=
  {| grid := [0; 1; 2; 3];
     u := [0; -1; -3; -6];
     T := [300; 300; 300; 300];
     density := [1; 1; 1; 1];
     heat_release_rate := [0; 0; 0; 0];
     cp := [1; 1; 1; 1] |}.

(** The largest |strain rate| sits in the first interval. *)
Definition steep_inlet : Flame :=
  {| grid := [0; 1; 2; 3];
     u := [10; 0; 1; 1];
     T := [300; 300; 300; 300];
     density := [1; 1; 1; 1];
     heat_release_rate := [0; 0; 0; 0];
     cp := [1; 1; 1; 1] |}.

(** The velocity is lowest at the inlet among the points before the largest
    |strain rate|. *)
Definition rising_inlet : Flame :=
  {| grid := [0; 1; 2; 3];
     u := [0; 1; 10; 10];
     T := [300; 300; 300; 300];
     density := [1; 1; 1; 1];
     heat_release_rate := [0; 0; 0; 0];
     cp := [1; 1; 1; 1] |}.

(** ** Vocabulary of the specification *)

(** [j] is next to [p]. *)
Definition neighbours (p j : nat) : Prop := j = S p \/ p = S j.

(** [p] is a point of [a] none of whose neighbours is smaller (larger). *)
Definition local_minimum (a : list Q) (p : nat) : Prop :=
  (p < length a)%nat /\
  forall j, (j < length a)%nat -> neighbours p j -> nth p a 0 <= nth j a 0.

Definition local_maximum (a : list Q) (p : nat) : Prop :=
  (p < length a)%nat /\
  forall j, (j < length a)%nat -> neighbours p j -> nth j a 0 <= nth p a 0.

Definition local_extremum (a : list Q) (p : nat) : Prop :=
  local_minimum a p \/ local_maximum a p.

(** [m] is the largest (smallest) value in [l]. *)
Definition is_max (l : list Q) (m : Q) : Prop :=
  (exists t, In t l /\ t == m) /\ forall t, In t l -> t <= m.

Definition is_min (l : list Q) (m : Q) : Prop :=
  (exists t, In t l /\ t == m) /\ forall t, In t l -> m <= t.

(** [f 0 + ... + f (k-1)] *)
Fixpoint sum_below (k : nat) (f : nat -> Q) : Q :=
  match k with
  | O => 0
  | S k' => sum_below k' f + f k'
  end.

(** The trapezoidal rule in the words of the specification: the sum over
    [i] of [(x[i+1] - x[i]) * (y[i] + y[i+1]) / 2]. *)
Definition trapezoidal_rule (x y : list Q) : Q :=
  sum_below (length x - 1)
    (fun i => (nth (S i) x 0 - nth i x 0) * (nth i y 0 + nth (S i) y 0) / 2).

(** The calls [evs] made one after the other from the state [w], up to
    the first that does not return. *)
Fixpoint run_calls {W : Type} (ext : Externals W) (evs : list Event) (w : W)
  : outcome unit * W :=
  match evs with
  | [] => (Ok tt, w)
  | ev :: rest =>
      match call ext ev w with
      | (Ok _, w') => run_calls ext rest w'
      | stopped => stopped
      end
  end.

(** Every run of [c] makes calls whose names are the first so many of
    [names], and all of them when it returns. *)
Definition emits {W A : Type} (c : M W A) (names : list string) : Prop :=
  forall s, exists l,
    snd (snd (c s)) = snd s ++ l /\
    (exists rest, names = map name l ++ rest) /\
    (forall a, fst (c s) = Ok a -> map name l = names).

(** The calls of [solveOpposedFlame], of the plotting preferences and of the
    two notebooks, in order. *)
Definition solver_calls (massFlux : Q) (loglevel : Z)
           (ratio slope curve prune : Q) : list Event :=
  [reactants_set_mdot massFlux; set_refine_criteria ratio slope curve prune;
   show_solution; solve loglevel true].

Definition solver_names : list string :=
  ["oppFlame.reactants.mdot"; "oppFlame.set_refine_criteria";
   "oppFlame.show_solution"; "oppFlame.solve"]%string.

Definition preference_calls : list Event :=
  [plt_rcParams "figure.autolayout" "True";
   plt_rcParams "axes.labelsize" "14";
   plt_rcParams "xtick.labelsize" "12";
   plt_rcParams "ytick.labelsize" "12";
   plt_rcParams "legend.fontsize" "10";
   plt_rcParams "figure.facecolor" "white";
   plt_rcParams "figure.figsize" "(8,6)"].

Definition report_calls (Tpeak K Sc : Q) : list Event :=
  [print "Peak temperature: {0:.1f} K" Tpeak;
   print "Strain Rate: {0:.1f} 1/s" K;
   print "Consumption Speed: {0:.2f} cm/s" (Sc * 100)].

Definition part_000_names : list string :=
  (["print"; "ct.Solution"; "gas.TPX";
    "ct.CounterflowTwinPremixedFlame"]%string
   ++ solver_names
   ++ ["oppFlame.write_csv"; "print"; "print"; "print"]%string
   ++ repeat "plt.rcParams"%string 7)%list.

Definition twinPremixedESR_names : list string :=
  (["print"; "ct.Solution"; "gas.set_equivalence_ratio"; "gas.TP";
    "ct.CounterflowTwinPremixedFlame"]%string
   ++ solver_names
   ++ ["oppFlame.write_csv"; "print"; "print"; "print"]%string
   ++ repeat "plt.rcParams"%string 7
   ++ ["plt.figure"; "plt.plot"; "plt.xlim"; "plt.xlabel"; "plt.ylabel";
       "plt.plot"; "plt.annotate"]%string
   ++ ["plt.figure"; "plt.plot"; "plt.xlim"; "plt.xlabel";
       "plt.ylabel"]%string
   ++ ["plt.figure"; "plt.plot"; "plt.plot"; "plt.plot"; "plt.xlim";
       "plt.xlabel"; "plt.ylabel"; "plt.legend"]%string)%list.

(** [a[i+1] - a[i]] as the element type of [a] computes it. *)
Definition difference (a : ndarray) (i : nat) : Q :=
  match a with
  | Float64 l => nth (S i) l 0 - nth i l 0
  | Int64 l => inject_Z (nd.wrap64 (nth (S i) l 0%Z - nth i l 0%Z))
  end.




(** A device of the proofs about [computeStrainRates]: [derivative] with
    both element types fixed to [float64], where no conversion changes a
    value.  [derivative_on_float64] proves it equal to [derivative] on such
    arrays. *)
Definition derivative_float64 (x y : list Q) : outcome (list Q) :=
  let dydx := np.zeros (length y) in
  let dx := np.diff x in
  let dy := np.diff y in
  q <- np.divide dy dx ;;
  dydx <- np.set_init dydx q ;;
  y1 <- py.getitem y (-1) ;;
  y2 <- py.getitem y (-2) ;;
  x1 <- py.getitem x (-1) ;;
  x2 <- py.getitem x (-2) ;;
  last <- py.div (y1 - y2) (x1 - x2) ;;
  py.setitem dydx (-1) last.

(** No entry of [l] is zero. *)
Definition nonzero (v : Q) : bool := negb (Qeq_bool v 0).
Definition all_nonzero (l : list Q) : bool := forallb nonzero l.

(** The flame with another temperature array. *)
Definition with_T (f : Flame) (T' : list Q) : Flame :=
  {| grid := grid f; u := u f; T := T'; density := density f;
     heat_release_rate := heat_release_rate f; cp := cp f |}.

(** * Properties *)

(** ** Outcomes *)

Lemma bind_Ok_inv {A B : Type} (c : outcome A) (k : A -> outcome B) (b : B) :
  bind c k = Ok b -> exists a, c = Ok a /\ k a = Ok b.
Proof.
  destruct c as [a| |]; simpl; intros H; try discriminate.
  exists a; split; [reflexivity | exact H].
Qed.

Lemma mapM_length {A B : Type} (f : A -> outcome B) (l : list A) (r : list B) :
  mapM f l = Ok r -> length r = length l.
Proof.
  revert r; induction l as [|a t IH]; simpl; intros r H.
  - injection H as <-; reflexivity.
  - apply bind_Ok_inv in H as (b & _ & H).
    apply bind_Ok_inv in H as (bs & Hbs & H).
    injection H as <-; simpl; f_equal; apply IH; exact Hbs.
Qed.

Lemma mapM_nth {A B : Type} (f : A -> outcome B) (l : list A) (r : list B)
      (da : A) (db : B) (i : nat) :
  mapM f l = Ok r -> (i < length l)%nat -> f (nth i l da) = Ok (nth i r db).
Proof.
  revert r i; induction l as [|a t IH]; simpl; intros r i H Hi; [lia|].
  apply bind_Ok_inv in H as (b & Hb & H).
  apply bind_Ok_inv in H as (bs & Hbs & H).
  injection H as <-.
  destruct i as [|i]; simpl; [exact Hb|].
  apply IH; [exact Hbs | lia].
Qed.

Lemma mapM_total {A B : Type} (f : A -> outcome B) (l : list A) :
  (forall a, In a l -> exists b, f a = Ok b) -> exists r, mapM f l = Ok r.
Proof.
  induction l as [|a t IH]; simpl; intros H.
  - exists []; reflexivity.
  - destruct (H a (or_introl eq_refl)) as (b & Hb).
    destruct IH as (bs & Hbs); [intros a' Ha'; apply H; right; exact Ha'|].
    exists (b :: bs); rewrite Hb, Hbs; reflexivity.
Qed.

Lemma mapM_stops {A B : Type} (f : A -> outcome B) (l : list A) (a : A)
      (w : limit) :
  (forall a', In a' l -> (exists b, f a' = Ok b) \/ f a' = Beyond w) ->
  In a l -> f a = Beyond w -> mapM f l = Beyond w.
Proof.
  induction l as [|h t IH]; simpl; intros Hall Hin Ha; [contradiction|].
  destruct (Hall h (or_introl eq_refl)) as [(b & Hb)|Hb]; rewrite Hb; simpl;
    [|reflexivity].
  destruct Hin as [->|Hin]; [congruence|].
  rewrite IH; auto.
Qed.

(** ** Indexing *)

Lemma position_nat (n i : nat) :
  (i < n)%nat -> py.position n (Z.of_nat i) = Ok i.
Proof.
  intros H; unfold py.position.
  destruct (Z.ltb_spec (Z.of_nat i) 0); [lia|].
  destruct (Z.leb_spec 0 (Z.of_nat i)); [|lia].
  destruct (Z.ltb_spec (Z.of_nat i) (Z.of_nat n)); [|lia].
  simpl; rewrite Nat2Z.id; reflexivity.
Qed.

Lemma position_nat_out (n i : nat) :
  (n <= i)%nat -> py.position n (Z.of_nat i) = Raise IndexError.
Proof.
  intros H; unfold py.position.
  destruct (Z.ltb_spec (Z.of_nat i) 0); [lia|].
  destruct (Z.leb_spec 0 (Z.of_nat i)); [|lia].
  destruct (Z.ltb_spec (Z.of_nat i) (Z.of_nat n)); [lia|].
  reflexivity.
Qed.

Lemma position_back (n k : nat) :
  (1 <= k <= n)%nat -> py.position n (- Z.of_nat k) = Ok (n - k)%nat.
Proof.
  intros H; unfold py.position.
  destruct (Z.ltb_spec (- Z.of_nat k) 0); [|lia].
  destruct (Z.leb_spec 0 (- Z.of_nat k + Z.of_nat n)); [|lia].
  destruct (Z.ltb_spec (- Z.of_nat k + Z.of_nat n) (Z.of_nat n)); [|lia].
  simpl; f_equal; lia.
Qed.

Lemma position_back_out (n k : nat) :
  (n < k)%nat -> py.position n (- Z.of_nat k) = Raise IndexError.
Proof.
  intros H; unfold py.position.
  destruct (Z.ltb_spec (- Z.of_nat k) 0); [|lia].
  destruct (Z.leb_spec 0 (- Z.of_nat k + Z.of_nat n)); [lia|].
  reflexivity.
Qed.

Lemma position_m1 (n : nat) :
  (1 <= n)%nat -> py.position n (-1) = Ok (n - 1)%nat.
Proof. intros H; apply (position_back n 1); lia. Qed.

Lemma getitem_nat (a : list Q) (i : nat) :
  (i < length a)%nat -> py.getitem a (Z.of_nat i) = Ok (nth i a 0).
Proof.
  intros H; unfold py.getitem; rewrite position_nat by exact H; reflexivity.
Qed.

Lemma getitem_nat_out (a : list Q) (i : nat) :
  (length a <= i)%nat -> py.getitem a (Z.of_nat i) = Raise IndexError.
Proof.
  intros H; unfold py.getitem; rewrite position_nat_out by exact H;
    reflexivity.
Qed.

Lemma getitem_back (a : list Q) (k : nat) :
  (1 <= k <= length a)%nat ->
  py.getitem a (- Z.of_nat k) = Ok (nth (length a - k) a 0).
Proof.
  intros H; unfold py.getitem; rewrite position_back by exact H; reflexivity.
Qed.

Lemma getitem_back_out (a : list Q) (k : nat) :
  (length a < k)%nat -> py.getitem a (- Z.of_nat k) = Raise IndexError.
Proof.
  intros H; unfold py.getitem; rewrite position_back_out by exact H;
    reflexivity.
Qed.

Lemma getitem_m1 (a : list Q) :
  (1 <= length a)%nat -> py.getitem a (-1) = Ok (nth (length a - 1) a 0).
Proof. intros H; apply (getitem_back a 1); lia. Qed.

Lemma getitem_m2 (a : list Q) :
  (2 <= length a)%nat -> py.getitem a (-2) = Ok (nth (length a - 2) a 0).
Proof. intros H; apply (getitem_back a 2); lia. Qed.

Lemma getitem_m2_out (a : list Q) :
  (length a < 2)%nat -> py.getitem a (-2) = Raise IndexError.
Proof. intros H; apply (getitem_back_out a 2); exact H. Qed.

Lemma update_last (q : list Q) (z v : Q) :
  py.update (q ++ [z]) (length q) v = q ++ [v].
Proof.
  induction q as [|h t IH]; simpl; [reflexivity|].
  rewrite IH; reflexivity.
Qed.

(** ** Concrete runs of [derivative] and [np.trapz] *)

Example derivative_run :
  derivative (Float64 [0; 1; 3; 6]) (Float64 [0; 1; 4; 1])
  = Ok (Float64 [1; 3 # 2; -3 # 3; -3 # 3]).
Proof. reflexivity. Qed.

(** The same numbers as integers: the quotients are cut to integers. *)
Example derivative_run_int64 :
  derivative (Int64 [0; 1; 3; 6]%Z) (Int64 [0; 1; 4; 1]%Z)
  = Ok (Int64 [1; 1; -1; -1]%Z).
Proof. reflexivity. Qed.

(** Only the element type of [y] decides. *)
Example derivative_run_mixed :
  derivative (Int64 [0; 1; 3; 6]%Z) (Float64 [0; 1; 4; 1])
  = Ok (Float64 [1; 3 # 2; -3 # 3; -3 # 3]) /\
  derivative (Float64 [0; 1; 3; 6]) (Int64 [0; 1; 4; 1]%Z)
  = Ok (Int64 [1; 1; -1; -1]%Z).
Proof. split; reflexivity. Qed.

(** A two-point [x] is broadcast against a longer [y]. *)
Example derivative_broadcast :
  derivative (Float64 [0; 1]) (Float64 [0; 1; 4; 1])
  = Ok (Float64 [1; 3; -3; -3]).
Proof. reflexivity. Qed.

Example derivative_one_point :
  derivative (Float64 [0]) (Float64 [0]) = Raise IndexError.
Proof. reflexivity. Qed.

Example derivative_shapes_differ :
  derivative (Float64 [0; 1; 2]) (Float64 [0; 1]) = Raise ValueError.
Proof. reflexivity. Qed.

Example derivative_repeated_point :
  derivative (Float64 [0; 1; 1]) (Float64 [0; 1; 4]) = Beyond NonFinite.
Proof. reflexivity. Qed.

Example trapz_run : np.trapz [1; 2; 3] [0; 1; 3] = Ok (26 # 4).
Proof. reflexivity. Qed.

(** ** numpy operations *)

Lemma diff_length (a : list Q) : length (np.diff a) = (length a - 1)%nat.
Proof.
  induction a as [|x0 [|x1 t] IH]; simpl in *; try reflexivity.
  rewrite IH; lia.
Qed.

Lemma diff_nth (a : list Q) (i : nat) :
  (S i < length a)%nat ->
  nth i (np.diff a) 0 = nth (S i) a 0 - nth i a 0.
Proof.
  revert i; induction a as [|x0 [|x1 t] IH]; simpl in *; intros i H; try lia.
  destruct i as [|i]; [reflexivity|].
  apply (IH i); lia.
Qed.

Lemma broadcast_same (a b : list Q) :
  length a = length b -> np.broadcast a b = Ok (combine a b).
Proof.
  intros H; unfold np.broadcast; rewrite H, Nat.eqb_refl; reflexivity.
Qed.

Lemma broadcast_length (a b : list Q) (p : list (Q * Q)) :
  np.broadcast a b = Ok p ->
  (length a = length b /\ p = combine a b) \/
  (length a = 1%nat /\ length a <> length b /\ length p = length b) \/
  (length b = 1%nat /\ length a <> length b /\
   p = map (fun x => (x, nth 0 b 0)) a).
Proof.
  unfold np.broadcast.
  destruct (Nat.eqb_spec (length a) (length b)) as [E|E].
  - intros H; injection H as <-; left; split; [exact E | reflexivity].
  - destruct a as [|x [|x' a]].
    + destruct b as [|y [|y' b]]; intros H; try discriminate.
      injection H as <-; right; right; simpl; auto.
    + intros H; injection H as <-; right; left.
      rewrite length_map; simpl; auto.
    + destruct b as [|y [|y' b]]; intros H; try discriminate.
      injection H as <-; right; right; simpl; auto.
Qed.

Lemma divide_length (a b q : list Q) :
  np.divide a b = Ok q ->
  (length a = length b /\ length q = length a) \/
  (length a = 1%nat /\ length a <> length b /\ length q = length b) \/
  (length b = 1%nat /\ length a <> length b /\ length q = length a).
Proof.
  unfold np.divide; intros H.
  apply bind_Ok_inv in H as (p & Hp & H).
  apply mapM_length in H.
  apply broadcast_length in Hp as [(E & ->)|[(E & N & L)|(E & N & ->)]].
  - left; split; [exact E|].
    rewrite H, length_combine, E; apply Nat.min_id.
  - right; left; repeat split; auto; congruence.
  - right; right; repeat split; auto.
    rewrite H, length_map; reflexivity.
Qed.

Lemma skipn_repeat_last {A : Type} (c : A) (k : nat) :
  skipn k (repeat c (S k)) = [c].
Proof. induction k as [|k IH]; simpl in *; auto. Qed.

Lemma div_Ok_inv (a b c : Q) :
  py.div a b = Ok c -> ~ b == 0 /\ c = a / b.
Proof.
  unfold py.div; destruct (Qeq_bool b 0) eqn:E; intros H; [discriminate|].
  injection H as <-; split; [|reflexivity].
  intros Hb; apply Qeq_bool_iff in Hb; congruence.
Qed.

Lemma div_nonzero (a b : Q) : ~ b == 0 -> py.div a b = Ok (a / b).
Proof.
  intros H; unfold py.div; destruct (Qeq_bool b 0) eqn:E; [|reflexivity].
  apply Qeq_bool_iff in E; contradiction.
Qed.

Lemma div_zero (a b : Q) : b == 0 -> py.div a b = Beyond NonFinite.
Proof.
  intros H; unfold py.div; apply Qeq_bool_iff in H; rewrite H; reflexivity.
Qed.

(** ** [derivative] on [float64] arrays *)

Lemma derivative_on_float64 (x y : list Q) :
  derivative (Float64 x) (Float64 y)
  = (d <- derivative_float64 x y ;; Ok (Float64 d)).
Proof.
  unfold derivative, derivative_float64, nd.true_divide, nd.set_init,
    nd.getitem, nd.setitem, nd.div, py.getitem, py.setitem, np.zeros.
  cbn [nd.diff nd.zeros nd.dtype_of nd.len values].
  destruct (np.divide (np.diff y) (np.diff x)) as [q| |]; [|reflexivity..].
  cbn [bind values].
  destruct (np.set_init (repeat 0 (length y)) q) as [d0| |]; [|reflexivity..].
  cbn [bind nd.len].
  destruct (py.position (length y) (-1)) as [p1| |]; [|reflexivity..].
  cbn [bind].
  destruct (py.position (length y) (-2)) as [p2| |]; [|reflexivity..].
  cbn [bind].
  destruct (py.position (length x) (-1)) as [p3| |]; [|reflexivity..].
  cbn [bind].
  destruct (py.position (length x) (-2)) as [p4| |]; [|reflexivity..].
  cbn [bind nd.sub nd.value nd.item].
  destruct (py.div (nth p1 y 0 - nth p2 y 0) (nth p3 x 0 - nth p4 x 0))
    as [v| |]; [|reflexivity..].
  cbn [bind nd.value].
  destruct (py.position (length d0) (-1)) as [p5| |]; reflexivity.
Qed.

Lemma derivative_float64_Ok (x y d : list Q) :
  derivative (Float64 x) (Float64 y) = Ok (Float64 d)
  <-> derivative_float64 x y = Ok d.
Proof.
  rewrite derivative_on_float64.
  destruct (derivative_float64 x y) as [d'| |]; simpl;
    split; intros H; try discriminate; injection H as ->; reflexivity.
Qed.

Lemma derivative_float64_Raise (x y : list Q) (e : exn) :
  derivative (Float64 x) (Float64 y) = Raise e
  <-> derivative_float64 x y = Raise e.
Proof.
  rewrite derivative_on_float64.
  destruct (derivative_float64 x y) as [d'| |]; simpl;
    split; intros H; try discriminate; injection H as ->; reflexivity.
Qed.

(** The two [computeStrainRates] with [derivative] run on the flame's
    arrays. *)
Lemma scan_computeStrainRates_eq (f : Flame) :
  ExtinctionStrainRate.computeStrainRates f
  = (strainRates <- derivative_float64 (grid f) (u f) ;;
     n <- ExtinctionStrainRate.scan_while
            (S (length strainRates)) strainRates 0 ;;
     v <- py.getitem strainRates (Z.of_nat n) ;;
     Ok (strainRates, n, Qabs v)).
Proof.
  unfold ExtinctionStrainRate.computeStrainRates.
  rewrite derivative_on_float64.
  destruct (derivative_float64 (grid f) (u f)); reflexivity.
Qed.

Lemma selection_computeStrainRates_eq (f : Flame) :
  TwinPremixedESR.computeStrainRates f
  = (strainRates <- derivative_float64 (grid f) (u f) ;;
     maxStrLocation <- np.argmax (np.absolute strainRates) ;;
     minVelocityPoint <- np.argmin (py.upto (u f) maxStrLocation) ;;
     strainRatePoint <-
       np.argmax (np.absolute (py.upto strainRates minVelocityPoint)) ;;
     v <- py.getitem strainRates (Z.of_nat strainRatePoint) ;;
     Ok (strainRates, strainRatePoint, Qabs v)).
Proof.
  unfold TwinPremixedESR.computeStrainRates.
  rewrite derivative_on_float64.
  destruct (derivative_float64 (grid f) (u f)); reflexivity.
Qed.

(** ** The [float64] instance of [derivative] *)

(** Every array [derivative_float64] returns is the quotient array
    followed by the endpoint value; this covers the broadcast case of a
    two-point [x]. *)
Lemma derivative_Ok_inv (x y d : list Q) :
  derivative_float64 x y = Ok d ->
  (2 <= length y)%nat /\ (2 <= length x)%nat /\
  exists q,
    np.divide (np.diff y) (np.diff x) = Ok q /\
    length q = (length y - 1)%nat /\
    ~ nth (length x - 1) x 0 - nth (length x - 2) x 0 == 0 /\
    d = q ++ [(nth (length y - 1) y 0 - nth (length y - 2) y 0) /
              (nth (length x - 1) x 0 - nth (length x - 2) x 0)].
Proof.
  unfold derivative_float64; intros H.
  apply bind_Ok_inv in H as (q & Hq & H).
  apply bind_Ok_inv in H as (d0 & Hd0 & H).
  apply bind_Ok_inv in H as (y1 & Hy1 & H).
  apply bind_Ok_inv in H as (y2 & Hy2 & H).
  apply bind_Ok_inv in H as (x1 & Hx1 & H).
  apply bind_Ok_inv in H as (x2 & Hx2 & H).
  apply bind_Ok_inv in H as (v & Hv & H).
  assert (Ly : (2 <= length y)%nat).
  { destruct (le_lt_dec 2 (length y)) as [L|L]; [exact L|].
    rewrite getitem_m2_out in Hy2 by exact L; discriminate. }
  assert (Lx : (2 <= length x)%nat).
  { destruct (le_lt_dec 2 (length x)) as [L|L]; [exact L|].
    rewrite getitem_m2_out in Hx2 by exact L; discriminate. }
  rewrite getitem_m1 in Hy1 by lia.
  rewrite getitem_m2 in Hy2 by lia.
  rewrite getitem_m1 in Hx1 by lia.
  rewrite getitem_m2 in Hx2 by lia.
  injection Hy1 as <-; injection Hy2 as <-.
  injection Hx1 as <-; injection Hx2 as <-.
  apply div_Ok_inv in Hv as (Hnz & ->).
  assert (Lq : length q = (length y - 1)%nat).
  { pose proof (divide_length _ _ _ Hq) as D.
    rewrite !diff_length in D.
    unfold np.set_init, np.zeros in Hd0; rewrite repeat_length in Hd0.
    destruct (Nat.eqb_spec (length q) (length y - 1)) as [E|E]; [exact E|].
    destruct q as [|c [|c' q]]; try discriminate; simpl in *; lia. }
  split; [exact Ly|]; split; [exact Lx|].
  exists q; repeat split; auto.
  unfold np.set_init, np.zeros in Hd0; rewrite repeat_length in Hd0.
  rewrite Lq, Nat.eqb_refl in Hd0; injection Hd0 as <-.
  destruct (length y) as [|k] eqn:Ek; [lia|].
  replace (S k - 1)%nat with k in * by lia.
  rewrite skipn_repeat_last in H.
  unfold py.setitem in H.
  change (-1)%Z with (- Z.of_nat 1)%Z in H.
  rewrite position_back in H by (rewrite length_app; simpl; lia).
  simpl in H; injection H as <-.
  rewrite length_app; simpl.
  replace (length q + 1 - 1)%nat with (length q) by lia.
  apply update_last.
Qed.

Lemma in_diff (a : list Q) (v : Q) :
  In v (np.diff a) ->
  exists i, (S i < length a)%nat /\ v = nth (S i) a 0 - nth i a 0.
Proof.
  intros H; apply (In_nth _ _ 0) in H as (i & Hi & <-).
  rewrite diff_length in Hi.
  exists i; split; [lia | apply diff_nth; lia].
Qed.

(** The entries of the quotient array [dy/dx] inside
    [derivative_float64]. *)
Lemma divide_diff_nth (x y q : list Q) (i : nat) :
  np.divide (np.diff y) (np.diff x) = Ok q ->
  length q = (length y - 1)%nat ->
  (2 <= length y)%nat -> (2 <= length x)%nat ->
  (S i < length y)%nat ->
  (length x = length y /\
   nth i q 0 = (nth (S i) y 0 - nth i y 0) / (nth (S i) x 0 - nth i x 0)) \/
  (length x = 2%nat /\
   nth i q 0 = (nth (S i) y 0 - nth i y 0) / (nth 1 x 0 - nth 0 x 0)).
Proof.
  unfold np.divide; intros H Lq Ly Lx Hi.
  apply bind_Ok_inv in H as (p & Hp & H).
  pose proof (mapM_length _ _ _ H) as Lp.
  apply broadcast_length in Hp as [(E & ->)|[(E & N & L)|(E & N & ->)]];
    rewrite !diff_length in *.
  - left; split; [lia|].
    apply (mapM_nth _ _ _ (0, 0) 0 i) in H;
      [|rewrite length_combine, !diff_length; lia].
    rewrite combine_nth in H by (rewrite !diff_length; lia).
    simpl in H; apply div_Ok_inv in H as (_ & ->).
    rewrite !diff_nth by lia; reflexivity.
  - lia.
  - right; split; [lia|].
    apply (mapM_nth _ _ _ (0, nth 0 (np.diff x) 0) 0 i) in H;
      [|rewrite length_map, diff_length; lia].
    rewrite (map_nth (fun a => (a, nth 0 (np.diff x) 0))) in H.
    simpl in H; apply div_Ok_inv in H as (_ & ->).
    rewrite !diff_nth by lia; reflexivity.
Qed.

Lemma derivative_length (x y d : list Q) :
  derivative_float64 x y = Ok d -> length d = length y /\ (2 <= length y)%nat.
Proof.
  intros H; apply derivative_Ok_inv in H as (Ly & _ & q & _ & Lq & _ & ->).
  rewrite length_app; simpl; lia.
Qed.

(** Whatever [derivative_float64] returns ends in two equal entries. *)
Lemma derivative_last_two (x y d : list Q) :
  derivative_float64 x y = Ok d ->
  nth (length d - 2) d 0 = nth (length d - 1) d 0.
Proof.
  intros H; apply derivative_Ok_inv in H as (Ly & Lx & q & Hq & Lq & _ & ->).
  rewrite length_app; simpl.
  rewrite app_nth1 by lia.
  rewrite app_nth2 by lia.
  replace (length q + 1 - 1 - length q)%nat with 0%nat by lia; simpl.
  destruct (divide_diff_nth x y q (length q + 1 - 2) Hq Lq Ly Lx)
    as [(E & ->)|(E & ->)]; try lia.
  - rewrite E, Lq; repeat f_equal; lia.
  - rewrite E, Lq; simpl; repeat f_equal; lia.
Qed.

(** On arrays of one length with no repeated grid point
    [derivative_float64] returns. *)
Lemma derivative_total (x y : list Q) :
  length x = length y -> (2 <= length y)%nat ->
  (forall i, (S i < length x)%nat -> ~ nth (S i) x 0 == nth i x 0) ->
  exists d, derivative_float64 x y = Ok d.
Proof.
  intros E Ly Hx.
  assert (Hnz : forall i, (S i < length x)%nat ->
                          ~ nth (S i) x 0 - nth i x 0 == 0).
  { intros i Hi Hz; apply (Hx i Hi); lra. }
  destruct (mapM_total (fun xy => py.div (fst xy) (snd xy))
              (combine (np.diff y) (np.diff x))) as (q & Hq).
  { intros [a b] Hab; apply in_combine_r in Hab.
    apply in_diff in Hab as (i & Hi & ->).
    eexists; apply div_nonzero; apply Hnz; exact Hi. }
  pose proof (mapM_length _ _ _ Hq) as Lq.
  rewrite length_combine, !diff_length, E, Nat.min_id in Lq.
  unfold derivative_float64, np.divide.
  rewrite broadcast_same by (rewrite !diff_length; lia).
  simpl; rewrite Hq; simpl.
  unfold np.set_init, np.zeros; rewrite repeat_length, Lq, Nat.eqb_refl.
  simpl.
  rewrite (getitem_m1 y), (getitem_m2 y), (getitem_m1 x), (getitem_m2 x)
    by lia.
  simpl.
  rewrite div_nonzero.
  2:{ replace (length x - 1)%nat with (S (length x - 2)) by lia.
      apply Hnz; lia. }
  simpl; unfold py.setitem.
  rewrite (position_m1 (length (q ++ skipn (length y - 1)
                                            (repeat 0 (length y))))).
  - eexists; reflexivity.
  - rewrite length_app; lia.
Qed.

(** ** [derivative] on arrays of either element type *)

Lemma nth_map_in {A B : Type} (g : A -> B) (l : list A) (i : nat)
      (da : A) (db : B) :
  (i < length l)%nat -> nth i (map g l) db = g (nth i l da).
Proof.
  intros H; rewrite (nth_indep _ db (g da)) by (rewrite length_map; exact H).
  apply map_nth.
Qed.

Lemma len_values (a : ndarray) : length (values a) = nd.len a.
Proof. destruct a; simpl; [reflexivity | apply length_map]. Qed.

Lemma nth_values_int (l : list Z) (i : nat) :
  nth i (map inject_Z l) 0 = inject_Z (nth i l 0%Z).
Proof. exact (map_nth inject_Z l 0%Z i). Qed.

Lemma diff_int_length (a : list Z) :
  length (nd.diff_int a) = (length a - 1)%nat.
Proof.
  induction a as [|x0 [|x1 t] IH]; cbn [nd.diff_int length] in *;
    try reflexivity.
  rewrite IH; lia.
Qed.

Lemma diff_int_nth (a : list Z) (i : nat) :
  (S i < length a)%nat ->
  nth i (nd.diff_int a) 0%Z = nd.wrap64 (nth (S i) a 0%Z - nth i a 0%Z).
Proof.
  revert i; induction a as [|x0 [|x1 t] IH]; cbn [nd.diff_int length nth] in *;
    intros i H; try lia.
  destruct i as [|i]; [reflexivity|].
  apply (IH i); lia.
Qed.

Lemma values_diff_length (a : ndarray) :
  length (values (nd.diff a)) = (nd.len a - 1)%nat.
Proof.
  destruct a as [l|l]; cbn [nd.diff values nd.len].
  - apply diff_length.
  - rewrite length_map; apply diff_int_length.
Qed.

(** The entries of [np.diff(a)] are the differences of neighbours. *)
Lemma values_diff_nth (a : ndarray) (i : nat) :
  (S i < nd.len a)%nat -> nth i (values (nd.diff a)) 0 = difference a i.
Proof.
  destruct a as [l|l]; cbn [nd.diff values nd.len difference]; intros H.
  - apply diff_nth; exact H.
  - rewrite nth_values_int, diff_int_nth by exact H; reflexivity.
Qed.

Lemma in_values_diff (a : ndarray) (v : Q) :
  In v (values (nd.diff a)) ->
  exists i, (S i < nd.len a)%nat /\ v = difference a i.
Proof.
  intros H; apply (In_nth _ _ 0) in H as (i & Hi & <-).
  rewrite values_diff_length in Hi.
  exists i; split; [lia | apply values_diff_nth; lia].
Qed.

(** Two different 64-bit integers have a difference that does not wrap to
    zero. *)
Lemma wrap64_zero (a b : Z) :
  nd.in_int64 a = true -> nd.in_int64 b = true ->
  nd.wrap64 (a - b) = 0%Z -> a = b.
Proof.
  unfold nd.in_int64, nd.wrap64.
  change (2 ^ 63)%Z with 9223372036854775808%Z.
  change (2 ^ 64)%Z with 18446744073709551616%Z.
  intros Ha Hb H.
  apply andb_true_iff in Ha as (Ha1 & Ha2).
  apply andb_true_iff in Hb as (Hb1 & Hb2).
  apply Z.leb_le in Ha1, Hb1; apply Z.ltb_lt in Ha2, Hb2.
  pose proof (Z.div_mod (a - b + 9223372036854775808) 18446744073709551616)
    as D.
  pose proof (Z.mod_pos_bound (a - b + 9223372036854775808)
                18446744073709551616) as B.
  lia.
Qed.

(** A difference that stays in the 64-bit range is the plain one. *)
Lemma wrap64_in_range (z : Z) : nd.in_int64 z = true -> nd.wrap64 z = z.
Proof.
  unfold nd.in_int64, nd.wrap64.
  change (2 ^ 63)%Z with 9223372036854775808%Z.
  change (2 ^ 64)%Z with 18446744073709551616%Z.
  intros H; apply andb_true_iff in H as (H1 & H2).
  apply Z.leb_le in H1; apply Z.ltb_lt in H2.
  rewrite Z.mod_small by lia; lia.
Qed.

Lemma wf_nth (l : list Z) (i : nat) :
  forallb nd.in_int64 l = true -> (i < length l)%nat ->
  nd.in_int64 (nth i l 0%Z) = true.
Proof.
  intros H Hi; rewrite forallb_forall in H; apply H, nth_In; exact Hi.
Qed.

Lemma inject_Z_eq (a b : Z) : inject_Z a == inject_Z b <-> a = b.
Proof. unfold Qeq; cbn [Qnum Qden inject_Z]; lia. Qed.

Lemma difference_nonzero (x : ndarray) (i : nat) :
  nd.wf x = true -> (S i < nd.len x)%nat ->
  ~ nth (S i) (values x) 0 == nth i (values x) 0 -> ~ difference x i == 0.
Proof.
  destruct x as [l|l]; cbn [nd.wf nd.len values difference]; intros W Hi Hx Hz.
  - apply Hx; lra.
  - rewrite !nth_values_int in Hx; apply Hx.
    apply (proj1 (inject_Z_eq _ 0%Z)) in Hz.
    apply wrap64_zero in Hz; [rewrite Hz; reflexivity | |];
      apply wf_nth; auto; lia.
Qed.

Lemma difference_zero (x : ndarray) (i : nat) :
  nth (S i) (values x) 0 == nth i (values x) 0 -> difference x i == 0.
Proof.
  destruct x as [l|l]; cbn [values difference]; intros H.
  - lra.
  - rewrite !nth_values_int in H; apply (proj1 (inject_Z_eq _ _)) in H.
    rewrite H, Z.sub_diag; reflexivity.
Qed.





















(** ** Comparisons, [argmax] and [argmin] *)

Lemma gt_true (a b : Q) : py.gt a b = true <-> b < a.
Proof.
  unfold py.gt; split.
  - destruct (a ?= b) eqn:E; try discriminate; intros _.
    apply Qgt_alt; exact E.
  - intros H; rewrite (proj1 (Qgt_alt a b) H); reflexivity.
Qed.

Lemma gt_false (a b : Q) : py.gt a b = false <-> a <= b.
Proof.
  split; intros H.
  - apply Qnot_lt_le; intros L; apply gt_true in L; congruence.
  - destruct (py.gt a b) eqn:E; [|reflexivity].
    apply gt_true in E; lra.
Qed.

Lemma lt_true (a b : Q) : py.lt a b = true <-> a < b.
Proof.
  unfold py.lt; split.
  - destruct (a ?= b) eqn:E; try discriminate; intros _.
    apply Qlt_alt; exact E.
  - intros H; rewrite (proj1 (Qlt_alt a b) H); reflexivity.
Qed.

Lemma lt_false (a b : Q) : py.lt a b = false <-> b <= a.
Proof.
  split; intros H.
  - apply Qnot_lt_le; intros L; apply lt_true in L; congruence.
  - destruct (py.lt a b) eqn:E; [|reflexivity].
    apply lt_true in E; lra.
Qed.

Lemma skipn_cons_nth (a : list Q) (i : nat) (x : Q) (t : list Q) :
  skipn i a = x :: t ->
  (i < length a)%nat /\ nth i a 0 = x /\ skipn (S i) a = t.
Proof.
  revert a; induction i as [|i IH]; intros [|h a] H; simpl in *;
    try discriminate.
  - injection H as <- <-; repeat split; lia.
  - destruct (IH a H) as (L & N & S'); repeat split; auto; lia.
Qed.

(** The scans behind [argmax] and [argmin] keep the first best entry of the
    part of the array already seen. *)
Lemma argmax_from_spec (a : list Q) (l : list Q) (best : Q) (bi i : nat) :
  skipn i a = l -> (bi < i)%nat -> (i <= length a)%nat ->
  best = nth bi a 0 ->
  (forall j, (j < i)%nat -> nth j a 0 <= best) ->
  (forall j, (j < bi)%nat -> nth j a 0 < best) ->
  let k := np.argmax_from best bi i l in
  (k < length a)%nat /\
  (forall j, (j < length a)%nat -> nth j a 0 <= nth k a 0) /\
  (forall j, (j < k)%nat -> nth j a 0 < nth k a 0).
Proof.
  revert best bi i; induction l as [|x t IH]; intros best bi i Hs Hb Hi -> Hle Hlt.
  - simpl.
    assert (length a <= i)%nat.
    { destruct (le_lt_dec (length a) i) as [L|L]; [exact L|].
      apply (f_equal (@length Q)) in Hs; rewrite length_skipn in Hs;
        simpl in Hs; lia. }
    repeat split; [lia | intros j Hj; apply Hle; lia | exact Hlt].
  - apply skipn_cons_nth in Hs as (L & N & Hs); subst x; simpl.
    destruct (py.gt (nth i a 0) (nth bi a 0)) eqn:G.
    + apply gt_true in G.
      apply (IH (nth i a 0) i (S i)); auto; try lia.
      * intros j Hj; destruct (Nat.eq_dec j i) as [->|]; [lra|].
        assert (nth j a 0 <= nth bi a 0) by (apply Hle; lia); lra.
      * intros j Hj.
        assert (nth j a 0 <= nth bi a 0) by (apply Hle; lia); lra.
    + apply gt_false in G.
      apply (IH (nth bi a 0) bi (S i)); auto; try lia.
      intros j Hj; destruct (Nat.eq_dec j i) as [->|]; [lra|].
      apply Hle; lia.
Qed.

Lemma argmin_from_spec (a : list Q) (l : list Q) (best : Q) (bi i : nat) :
  skipn i a = l -> (bi < i)%nat -> (i <= length a)%nat ->
  best = nth bi a 0 ->
  (forall j, (j < i)%nat -> best <= nth j a 0) ->
  (forall j, (j < bi)%nat -> best < nth j a 0) ->
  let k := np.argmin_from best bi i l in
  (k < length a)%nat /\
  (forall j, (j < length a)%nat -> nth k a 0 <= nth j a 0) /\
  (forall j, (j < k)%nat -> nth k a 0 < nth j a 0).
Proof.
  revert best bi i; induction l as [|x t IH]; intros best bi i Hs Hb Hi -> Hle Hlt.
  - simpl.
    assert (length a <= i)%nat.
    { destruct (le_lt_dec (length a) i) as [L|L]; [exact L|].
      apply (f_equal (@length Q)) in Hs; rewrite length_skipn in Hs;
        simpl in Hs; lia. }
    repeat split; [lia | intros j Hj; apply Hle; lia | exact Hlt].
  - apply skipn_cons_nth in Hs as (L & N & Hs); subst x; simpl.
    destruct (py.lt (nth i a 0) (nth bi a 0)) eqn:G.
    + apply lt_true in G.
      apply (IH (nth i a 0) i (S i)); auto; try lia.
      * intros j Hj; destruct (Nat.eq_dec j i) as [->|]; [lra|].
        assert (nth bi a 0 <= nth j a 0) by (apply Hle; lia); lra.
      * intros j Hj.
        assert (nth bi a 0 <= nth j a 0) by (apply Hle; lia); lra.
    + apply lt_false in G.
      apply (IH (nth bi a 0) bi (S i)); auto; try lia.
      intros j Hj; destruct (Nat.eq_dec j i) as [->|]; [lra|].
      apply Hle; lia.
Qed.

Lemma argmax_spec (a : list Q) (k : nat) :
  np.argmax a = Ok k ->
  (k < length a)%nat /\
  (forall j, (j < length a)%nat -> nth j a 0 <= nth k a 0) /\
  (forall j, (j < k)%nat -> nth j a 0 < nth k a 0).
Proof.
  destruct a as [|x t]; simpl; intros H; [discriminate|].
  injection H as <-.
  apply (argmax_from_spec (x :: t) t x 0 1); simpl; auto; try lia.
  intros j Hj; assert (j = 0%nat) as -> by lia; simpl; lra.
Qed.

Lemma argmin_spec (a : list Q) (k : nat) :
  np.argmin a = Ok k ->
  (k < length a)%nat /\
  (forall j, (j < length a)%nat -> nth k a 0 <= nth j a 0) /\
  (forall j, (j < k)%nat -> nth k a 0 < nth j a 0).
Proof.
  destruct a as [|x t]; simpl; intros H; [discriminate|].
  injection H as <-.
  apply (argmin_from_spec (x :: t) t x 0 1); simpl; auto; try lia.
  intros j Hj; assert (j = 0%nat) as -> by lia; simpl; lra.
Qed.

Lemma argmax_total (a : list Q) :
  (1 <= length a)%nat -> exists k, np.argmax a = Ok k.
Proof. destruct a; simpl; intros H; [lia | eexists; reflexivity]. Qed.

Lemma argmin_total (a : list Q) :
  (1 <= length a)%nat -> exists k, np.argmin a = Ok k.
Proof. destruct a; simpl; intros H; [lia | eexists; reflexivity]. Qed.

(** ** The scan of src/unnamed/part_000 *)

Lemma getitem_nat_inv (a : list Q) (i : nat) (v : Q) :
  py.getitem a (Z.of_nat i) = Ok v -> (i < length a)%nat /\ v = nth i a 0.
Proof.
  intros H; destruct (le_lt_dec (length a) i) as [L|L].
  - rewrite getitem_nat_out in H by exact L; discriminate.
  - rewrite getitem_nat in H by exact L; injection H as <-; auto.
Qed.

Lemma getitem_succ (a : list Q) (i : nat) :
  py.getitem a (Z.of_nat i + 1) = py.getitem a (Z.of_nat (S i)).
Proof. rewrite Nat2Z.inj_succ; reflexivity. Qed.

(** What the loop has established when it stops. *)
Lemma scan_while_inv (fuel : nat) (sr : list Q) (n p : nat) :
  ExtinctionStrainRate.scan_while fuel sr n = Ok p ->
  (n <= p)%nat /\ (S p < length sr)%nat /\
  (forall m, (n <= m < p)%nat -> nth (S m) sr 0 < nth m sr 0) /\
  nth p sr 0 <= nth (S p) sr 0.
Proof.
  revert n; induction fuel as [|fuel IH]; simpl; intros n H; [discriminate|].
  apply bind_Ok_inv in H as (a & Ha & H).
  apply bind_Ok_inv in H as (b & Hb & H).
  rewrite getitem_succ in Hb.
  apply getitem_nat_inv in Ha as (La & ->).
  apply getitem_nat_inv in Hb as (Lb & ->).
  destruct (py.gt (nth n sr 0) (nth (S n) sr 0)) eqn:G.
  - apply gt_true in G.
    destruct (IH (S n) H) as (Hn & Hp & Hdec & Hstop).
    repeat split; auto; try lia.
    intros m Hm; destruct (Nat.eq_dec m n) as [->|]; [exact G|].
    apply Hdec; lia.
  - apply gt_false in G; injection H as <-.
    repeat split; auto; intros m Hm; lia.
Qed.

(** On an array that ends in two equal entries the loop stops before the
    end, and one test per entry is fuel enough. *)
Lemma scan_while_total (sr : list Q) :
  (2 <= length sr)%nat ->
  nth (length sr - 2) sr 0 <= nth (length sr - 1) sr 0 ->
  forall fuel n,
    (n + 2 <= length sr)%nat -> (length sr - 1 - n <= fuel)%nat ->
    exists p, ExtinctionStrainRate.scan_while fuel sr n = Ok p.
Proof.
  intros L2 Hlast fuel; induction fuel as [|fuel IH]; intros n Hn Hf; [lia|].
  cbn [ExtinctionStrainRate.scan_while].
  rewrite getitem_succ, !getitem_nat by lia; cbn [bind].
  destruct (py.gt (nth n sr 0) (nth (S n) sr 0)) eqn:G;
    [|eexists; reflexivity].
  apply gt_true in G.
  assert (n + 2 <> length sr)%nat.
  { intros E.
    replace (length sr - 2)%nat with n in Hlast by lia.
    replace (length sr - 1)%nat with (S n) in Hlast by lia.
    lra. }
  apply IH; lia.
Qed.

(** The bound on the tests is never what stops the loop. *)
Lemma scan_while_fuel (fuel : nat) (sr : list Q) (n : nat) :
  (1 <= fuel)%nat -> (length sr < fuel + n)%nat ->
  ExtinctionStrainRate.scan_while fuel sr n <> Beyond FuelExhausted.
Proof.
  revert n; induction fuel as [|fuel IH]; intros n Hf Hn; [lia|].
  cbn [ExtinctionStrainRate.scan_while]; rewrite getitem_succ.
  destruct (le_lt_dec (length sr) n) as [L|L].
  { rewrite getitem_nat_out by exact L; discriminate. }
  rewrite getitem_nat by exact L; cbn [bind].
  destruct (le_lt_dec (length sr) (S n)) as [L'|L'].
  { rewrite getitem_nat_out by exact L'; discriminate. }
  rewrite getitem_nat by exact L'; cbn [bind].
  destruct (py.gt (nth n sr 0) (nth (S n) sr 0)); [|discriminate].
  apply IH; lia.
Qed.

Lemma bind_fuel {A B : Type} (c : outcome A) (k : A -> outcome B) :
  c <> Beyond FuelExhausted ->
  (forall a, k a <> Beyond FuelExhausted) ->
  bind c k <> Beyond FuelExhausted.
Proof.
  intros Hc Hk; destruct c as [a|e|l]; cbn [bind];
    [apply Hk | discriminate |].
  intros E; apply Hc; injection E as ->; reflexivity.
Qed.

Lemma mapM_fuel {A B : Type} (f : A -> outcome B) (l : list A) :
  (forall a, f a <> Beyond FuelExhausted) ->
  mapM f l <> Beyond FuelExhausted.
Proof.
  intros Hf; induction l as [|a t IH]; cbn [mapM]; [discriminate|].
  apply bind_fuel; [apply Hf | intros b].
  apply bind_fuel; [exact IH | discriminate].
Qed.

Lemma div_fuel (a b : Q) : py.div a b <> Beyond FuelExhausted.
Proof. unfold py.div; destruct (Qeq_bool b 0); discriminate. Qed.

Lemma position_fuel (n : nat) (i : Z) :
  py.position n i <> Beyond FuelExhausted.
Proof.
  unfold py.position.
  match goal with |- context [if ?c then Ok _ else _] => destruct c end;
    discriminate.
Qed.

Lemma broadcast_fuel (a b : list Q) :
  np.broadcast a b <> Beyond FuelExhausted.
Proof.
  unfold np.broadcast; destruct (length a =? length b)%nat; [discriminate|].
  destruct a as [|? [|? ?]]; destruct b as [|? [|? ?]]; discriminate.
Qed.

Lemma set_init_fuel (a v : list Q) : np.set_init a v <> Beyond FuelExhausted.
Proof.
  unfold np.set_init; destruct (length v =? length a - 1)%nat; [discriminate|].
  destruct v as [|? [|? ?]]; discriminate.
Qed.

Lemma derivative_fuel (x y : list Q) :
  derivative_float64 x y <> Beyond FuelExhausted.
Proof.
  unfold derivative_float64, np.divide, py.getitem, py.setitem.
  repeat first
    [ apply bind_fuel; [|intros ?]
    | apply mapM_fuel; intros ?
    | apply div_fuel | apply position_fuel | apply broadcast_fuel
    | apply set_init_fuel | discriminate ].
Qed.

Lemma scan_computeStrainRates_fuel (f : Flame) :
  ExtinctionStrainRate.computeStrainRates f <> Beyond FuelExhausted.
Proof.
  rewrite scan_computeStrainRates_eq; unfold py.getitem.
  apply bind_fuel; [apply derivative_fuel | intros sr].
  apply bind_fuel; [apply scan_while_fuel; lia | intros n].
  apply bind_fuel; [|discriminate].
  apply bind_fuel; [apply position_fuel | discriminate].
Qed.

(** The loop taken alone, on an array that decreases strictly over its whole
    length, runs off the end. *)
Lemma scan_while_strictly_decreasing (sr : list Q) :
  (forall m, (S m < length sr)%nat -> nth (S m) sr 0 < nth m sr 0) ->
  forall fuel n,
    (n <= length sr)%nat -> (length sr - n < fuel)%nat ->
    ExtinctionStrainRate.scan_while fuel sr n = Raise IndexError.
Proof.
  intros Hdec fuel; induction fuel as [|fuel IH]; intros n Hn Hf; [lia|].
  cbn [ExtinctionStrainRate.scan_while]; rewrite getitem_succ.
  destruct (le_lt_dec (length sr) n) as [L|L].
  { rewrite getitem_nat_out by exact L; reflexivity. }
  rewrite getitem_nat by exact L; cbn [bind].
  destruct (le_lt_dec (length sr) (S n)) as [L'|L'].
  { rewrite getitem_nat_out by exact L'; reflexivity. }
  rewrite getitem_nat by exact L'; cbn [bind].
  rewrite (proj2 (gt_true _ _) (Hdec n L')).
  apply IH; lia.
Qed.

(** No array that [derivative_float64] returns decreases strictly over
    its whole length. *)
Lemma derivative_not_strictly_decreasing (x y sr : list Q) :
  derivative_float64 x y = Ok sr ->
  ~ (forall m, (S m < length sr)%nat -> nth (S m) sr 0 < nth m sr 0).
Proof.
  intros H Hdec.
  pose proof (derivative_last_two x y sr H) as E.
  destruct (derivative_length x y sr H) as (L & L2).
  specialize (Hdec (length sr - 2)%nat).
  replace (S (length sr - 2)) with (length sr - 1)%nat in Hdec by lia.
  rewrite E in Hdec.
  assert (nth (length sr - 1) sr 0 < nth (length sr - 1) sr 0)
    by (apply Hdec; lia).
  lra.
Qed.

(** The part_000 version returns whenever [derivative_float64] does. *)
Lemma scan_computeStrainRates_total (f : Flame) (sr : list Q) :
  derivative_float64 (grid f) (u f) = Ok sr ->
  exists p,
    ExtinctionStrainRate.scan_while (S (length sr)) sr 0 = Ok p /\
    ExtinctionStrainRate.computeStrainRates f
    = Ok (sr, p, Qabs (nth p sr 0)).
Proof.
  intros H.
  pose proof (derivative_last_two _ _ _ H) as E.
  destruct (derivative_length _ _ _ H) as (L & L2).
  destruct (scan_while_total sr) with (fuel := S (length sr)) (n := 0%nat)
    as (p & Hp); try lia.
  { rewrite E; lra. }
  exists p; split; [exact Hp|].
  rewrite scan_computeStrainRates_eq.
  rewrite H; cbn [bind]; rewrite Hp; cbn [bind].
  apply scan_while_inv in Hp as (_ & Lp & _).
  rewrite getitem_nat by lia; reflexivity.
Qed.

Lemma scan_computeStrainRates_inv (f : Flame) (sr : list Q) (p : nat) (K : Q) :
  ExtinctionStrainRate.computeStrainRates f = Ok (sr, p, K) ->
  derivative_float64 (grid f) (u f) = Ok sr /\
  ExtinctionStrainRate.scan_while (S (length sr)) sr 0 = Ok p /\
  K = Qabs (nth p sr 0).
Proof.
  rewrite scan_computeStrainRates_eq; intros H.
  apply bind_Ok_inv in H as (sr' & Hsr & H).
  apply bind_Ok_inv in H as (n & Hn & H).
  apply bind_Ok_inv in H as (v & Hv & H).
  injection H as <- <- <-.
  apply getitem_nat_inv in Hv as (_ & ->); auto.
Qed.

(** ** The selection of src/flames/twinPremixedESR.ipynb *)

Lemma absolute_nth (a : list Q) (j : nat) :
  nth j (np.absolute a) 0 = Qabs (nth j a 0).
Proof. exact (map_nth Qabs a 0 j). Qed.

Lemma upto_nth (a : list Q) (k j : nat) :
  (j < k)%nat -> nth j (py.upto a k) 0 = nth j a 0.
Proof.
  intros H; unfold py.upto; rewrite nth_firstn.
  destruct (Nat.ltb_spec j k); [reflexivity | lia].
Qed.

Lemma upto_length (a : list Q) (k : nat) :
  (k <= length a)%nat -> length (py.upto a k) = k.
Proof. intros H; unfold py.upto; rewrite length_firstn; lia. Qed.

(** When the ipynb version returns and when it raises, by the two
    intermediate indices. *)
Lemma selection_cases (f : Flame) (sr : list Q) :
  derivative_float64 (grid f) (u f) = Ok sr ->
  exists maxStrLocation,
    np.argmax (np.absolute sr) = Ok maxStrLocation /\
    (maxStrLocation < length sr)%nat /\
    (maxStrLocation = 0%nat ->
     TwinPremixedESR.computeStrainRates f = Raise ValueError) /\
    ((0 < maxStrLocation)%nat ->
     exists minVelocityPoint,
       np.argmin (py.upto (u f) maxStrLocation) = Ok minVelocityPoint /\
       (minVelocityPoint < maxStrLocation)%nat /\
       (minVelocityPoint = 0%nat ->
        TwinPremixedESR.computeStrainRates f = Raise ValueError) /\
       ((0 < minVelocityPoint)%nat ->
        exists p,
          np.argmax (np.absolute (py.upto sr minVelocityPoint)) = Ok p /\
          (p < minVelocityPoint)%nat /\
          TwinPremixedESR.computeStrainRates f
          = Ok (sr, p, Qabs (nth p sr 0)))).
Proof.
  intros H.
  destruct (derivative_length _ _ _ H) as (L & L2).
  destruct (argmax_total (np.absolute sr)) as (msl & Hmsl).
  { unfold np.absolute; rewrite length_map; lia. }
  pose proof (argmax_spec _ _ Hmsl) as (Lmsl & _).
  unfold np.absolute in Lmsl; rewrite length_map in Lmsl.
  exists msl; split; [exact Hmsl|]; split; [exact Lmsl|].
  rewrite selection_computeStrainRates_eq.
  rewrite H; cbn [bind]; rewrite Hmsl; cbn [bind].
  split; [intros ->; reflexivity|].
  intros Pmsl.
  destruct (argmin_total (py.upto (u f) msl)) as (mvp & Hmvp).
  { rewrite upto_length; lia. }
  pose proof (argmin_spec _ _ Hmvp) as (Lmvp & _).
  rewrite upto_length in Lmvp by lia.
  exists mvp; split; [exact Hmvp|]; split; [exact Lmvp|].
  rewrite Hmvp; cbn [bind].
  split; [intros ->; reflexivity|].
  intros Pmvp.
  destruct (argmax_total (np.absolute (py.upto sr mvp))) as (p & Hp).
  { unfold np.absolute; rewrite length_map, upto_length; lia. }
  pose proof (argmax_spec _ _ Hp) as (Lp & _).
  unfold np.absolute in Lp; rewrite length_map, upto_length in Lp by lia.
  exists p; split; [exact Hp|]; split; [exact Lp|].
  rewrite Hp; cbn [bind].
  rewrite getitem_nat by lia; reflexivity.
Qed.

Lemma selection_inv (f : Flame) (sr : list Q) (p : nat) (K : Q) :
  TwinPremixedESR.computeStrainRates f = Ok (sr, p, K) ->
  derivative_float64 (grid f) (u f) = Ok sr /\
  K = Qabs (nth p sr 0) /\
  exists maxStrLocation minVelocityPoint,
    np.argmax (np.absolute sr) = Ok maxStrLocation /\
    np.argmin (py.upto (u f) maxStrLocation) = Ok minVelocityPoint /\
    np.argmax (np.absolute (py.upto sr minVelocityPoint)) = Ok p /\
    (p < minVelocityPoint < maxStrLocation)%nat /\
    (maxStrLocation < length sr)%nat.
Proof.
  intros H.
  assert (Hd : derivative_float64 (grid f) (u f) = Ok sr).
  { rewrite selection_computeStrainRates_eq in H.
    apply bind_Ok_inv in H as (sr' & Hsr & H).
    apply bind_Ok_inv in H as (a & _ & H).
    apply bind_Ok_inv in H as (b & _ & H).
    apply bind_Ok_inv in H as (c & _ & H).
    apply bind_Ok_inv in H as (v & _ & H).
    injection H as <- _ _; exact Hsr. }
  split; [exact Hd|].
  destruct (selection_cases f sr Hd) as (msl & Hmsl & Lmsl & Z0 & P0).
  destruct msl as [|msl]; [rewrite Z0 in H by reflexivity; discriminate|].
  destruct P0 as (mvp & Hmvp & Lmvp & Z1 & P1); [lia|].
  destruct mvp as [|mvp]; [rewrite Z1 in H by reflexivity; discriminate|].
  destruct P1 as (p' & Hp & Lp & E); [lia|].
  rewrite E in H; injection H as <- <-.
  split; [reflexivity|].
  exists (S msl), (S mvp); repeat split; auto; lia.
Qed.

(** ** The characteristic point *)

Lemma scan_point_local_minimum (fuel : nat) (sr : list Q) (p : nat) :
  ExtinctionStrainRate.scan_while fuel sr 0 = Ok p -> local_minimum sr p.
Proof.
  intros H; apply scan_while_inv in H as (_ & Lp & Hdec & Hstop).
  split; [lia|].
  intros j Lj [->| ->]; [exact Hstop|].
  apply Qlt_le_weak, Hdec; lia.
Qed.

(** C2, as the code has it.  In src/unnamed/part_000 the returned index is
    the first point where the strain rate stops decreasing: the strain rate
    falls strictly up to it and does not fall after it, so it is a local
    minimum of the strain-rate array.  In src/flames/twinPremixedESR.ipynb it
    is the first index of the largest |strain rate| among the points before
    [minVelocityPoint].  In both, [K] is the absolute value of the strain rate
    at the returned index. *)
Theorem characteristic_point (f : Flame) (sr : list Q) (p : nat) (K : Q) :
  (ExtinctionStrainRate.computeStrainRates f = Ok (sr, p, K) ->
   derivative (Float64 (grid f)) (Float64 (u f)) = Ok (Float64 sr) /\
   (S p < length sr)%nat /\
   (forall m, (m < p)%nat -> nth (S m) sr 0 < nth m sr 0) /\
   nth p sr 0 <= nth (S p) sr 0 /\
   local_minimum sr p /\
   local_extremum sr p /\
   K = Qabs (nth p sr 0))
  /\
  (TwinPremixedESR.computeStrainRates f = Ok (sr, p, K) ->
   derivative (Float64 (grid f)) (Float64 (u f)) = Ok (Float64 sr) /\
   (exists maxStrLocation minVelocityPoint,
      np.argmax (np.absolute sr) = Ok maxStrLocation /\
      np.argmin (py.upto (u f) maxStrLocation) = Ok minVelocityPoint /\
      (p < minVelocityPoint < maxStrLocation)%nat /\
      (maxStrLocation < length sr)%nat /\
      (forall j, (j < minVelocityPoint)%nat ->
                 Qabs (nth j sr 0) <= Qabs (nth p sr 0)) /\
      (forall j, (j < p)%nat -> Qabs (nth j sr 0) < Qabs (nth p sr 0))) /\
   K = Qabs (nth p sr 0)).
Proof.
  split; intros H.
  - apply scan_computeStrainRates_inv in H as (Hd & Hs & ->).
    apply derivative_float64_Ok in Hd.
    pose proof (scan_point_local_minimum _ _ _ Hs) as Hmin.
    apply scan_while_inv in Hs as (_ & Lp & Hdec & Hstop).
    repeat split; auto; try (apply Hmin).
    + intros m Hm; apply Hdec; lia.
    + left; exact Hmin.
  - apply selection_inv in H as (Hd & -> & msl & mvp & Hmsl & Hmvp & Hp
                                 & Lp & Lmsl).
    apply derivative_float64_Ok in Hd.
    split; [exact Hd|]; split; [|reflexivity].
    exists msl, mvp; repeat split; auto; try lia.
    + intros j Hj.
      pose proof (argmax_spec _ _ Hp) as (_ & Hmax & _).
      specialize (Hmax j).
      unfold np.absolute in Hmax at 1.
      rewrite length_map, upto_length in Hmax by lia.
      rewrite !absolute_nth, !upto_nth in Hmax by lia.
      apply Hmax; exact Hj.
    + intros j Hj.
      pose proof (argmax_spec _ _ Hp) as (_ & _ & Hfirst).
      specialize (Hfirst j Hj).
      rewrite !absolute_nth, !upto_nth in Hfirst by lia.
      exact Hfirst.
Qed.

Lemma characteristic_point_witness :
  (local_minimum [-1; -2; -1; 8; 0; 0] 1 /\ 2 = Qabs (-2)) /\
  (forall j, (j < 1)%nat ->
     Qabs (nth j [-1; -2; -1; 8; 0; 0] 0) < Qabs (-2)).
Proof.
  pose proof (characteristic_point profile6 [-1; -2; -1; 8; 0; 0] 1 2)
    as (Hscan & Hsel).
  destruct (Hscan eq_refl) as (_ & _ & _ & _ & Hmin & _ & HK).
  destruct (Hsel eq_refl) as (_ & (msl & mvp & _ & _ & _ & _ & _ & Hfirst) & _).
  split; [split; [exact Hmin | exact HK] | exact Hfirst].
Defined.

(** C2 as stated fails for src/flames/twinPremixedESR.ipynb: on the cold
    flow it returns index 1, where the strain rate goes on falling
    ([-1 > -2 > -3]), and |strain rate| goes on rising. *)
Lemma selection_point_not_extremum :
  TwinPremixedESR.computeStrainRates cold_flow
  = Ok ([-1; -2; -3; -4; 0; 0], 1%nat, 2) /\
  ~ local_extremum [-1; -2; -3; -4; 0; 0] 1 /\
  ~ local_extremum (np.absolute [-1; -2; -3; -4; 0; 0]) 1.
Proof.
  split; [reflexivity|].
  split; intros [(_ & H)|(_ & H)].
  - specialize (H 2%nat); simpl in H.
    assert (-2 <= -3) by (apply H; [lia | left; reflexivity]).
    lra.
  - specialize (H 0%nat); simpl in H.
    assert (-1 <= -2) by (apply H; [lia | right; reflexivity]).
    lra.
  - specialize (H 0%nat); simpl in H.
    assert (2 <= 1) by (apply H; [lia | right; reflexivity]).
    lra.
  - specialize (H 2%nat); simpl in H.
    assert (3 <= 2) by (apply H; [lia | left; reflexivity]).
    lra.
Qed.

(** C10.  Whenever either [computeStrainRates] returns, the first result is
    the array [derivative(grid, u)], the returned index lies in it, [K] is
    the absolute value of its entry at that index, and [K >= 0]. *)
Theorem strain_rate_results_consistent (f : Flame) (sr : list Q) (p : nat)
        (K : Q) :
  ExtinctionStrainRate.computeStrainRates f = Ok (sr, p, K) \/
  TwinPremixedESR.computeStrainRates f = Ok (sr, p, K) ->
  derivative (Float64 (grid f)) (Float64 (u f)) = Ok (Float64 sr) /\
  (p < length sr)%nat /\
  K = Qabs (nth p sr 0) /\
  0 <= K.
Proof.
  intros [H|H].
  - apply scan_computeStrainRates_inv in H as (Hd & Hs & ->).
    apply derivative_float64_Ok in Hd.
    apply scan_while_inv in Hs as (_ & Lp & _).
    repeat split; auto; [lia | apply Qabs_nonneg].
  - apply selection_inv in H as (Hd & -> & msl & mvp & _ & _ & _ & Lp & Lmsl).
    apply derivative_float64_Ok in Hd.
    repeat split; auto; [lia | apply Qabs_nonneg].
Qed.

Lemma strain_rate_results_consistent_witness :
  derivative (Float64 (grid cold_flow)) (Float64 (u cold_flow))
  = Ok (Float64 [-1; -2; -3; -4; 0; 0]) /\
  (3 < length [-1; -2; -3; -4; 0; 0]%Q)%nat /\
  4 = Qabs (nth 3 [-1; -2; -3; -4; 0; 0] 0) /\
  0 <= 4.
Proof.
  apply (strain_rate_results_consistent cold_flow [-1; -2; -3; -4; 0; 0] 3 4).
  left; reflexivity.
Defined.

(** ** The two versions side by side *)

(** C3 as stated fails: on the cold flow both versions return, the scan
    with index 3 and [K = 4], the selection with index 1 and [K = 2]. *)
Lemma versions_differ :
  ExtinctionStrainRate.computeStrainRates cold_flow
  = Ok ([-1; -2; -3; -4; 0; 0], 3%nat, 4) /\
  TwinPremixedESR.computeStrainRates cold_flow
  = Ok ([-1; -2; -3; -4; 0; 0], 1%nat, 2) /\
  3%nat <> 1%nat /\ ~ 4 == 2.
Proof.
  repeat split; try reflexivity; [lia | unfold Qeq; simpl; lia].
Qed.

Lemma strictly_falling (sr : list Q) (p : nat) :
  (forall m, (m < p)%nat -> nth (S m) sr 0 < nth m sr 0) ->
  forall k j, (j + S k <= p)%nat -> nth (j + S k) sr 0 < nth j sr 0.
Proof.
  intros Hdec k; induction k as [|k IH]; intros j Hj.
  - replace (j + 1)%nat with (S j) by lia; apply Hdec; lia.
  - assert (nth (j + S k) sr 0 < nth j sr 0) by (apply IH; lia).
    assert (nth (S (j + S k)) sr 0 < nth (j + S k) sr 0) by (apply Hdec; lia).
    replace (j + S (S k))%nat with (S (j + S k)) by lia; lra.
Qed.

(** Where the strain rate falls from a value that is not positive, its
    magnitude rises. *)
Lemma magnitudes_rise (sr : list Q) (p : nat) :
  (forall m, (m < p)%nat -> nth (S m) sr 0 < nth m sr 0) ->
  nth 0 sr 0 <= 0 ->
  forall j, (j < p)%nat -> Qabs (nth j sr 0) < Qabs (nth p sr 0).
Proof.
  intros Hdec Hin j Hj.
  assert (Hneg : forall i, (i <= p)%nat -> nth i sr 0 <= 0).
  { intros i; induction i as [|i IH]; intros Hi; [exact Hin|].
    assert (nth (S i) sr 0 < nth i sr 0) by (apply Hdec; lia).
    assert (nth i sr 0 <= 0) by (apply IH; lia).
    lra. }
  assert (nth p sr 0 < nth j sr 0).
  { replace p with (j + S (p - j - 1))%nat at 1 by lia.
    apply (strictly_falling sr p Hdec); lia. }
  assert (nth p sr 0 <= 0) by (apply Hneg; lia).
  assert (nth j sr 0 <= 0) by (apply Hneg; lia).
  rewrite (Qabs_neg (nth p sr 0)), (Qabs_neg (nth j sr 0)) by assumption.
  lra.
Qed.

(** [argmax] returns the one index that holds a largest item and has only
    smaller items before it. *)
Lemma argmax_unique (a : list Q) (k k' : nat) :
  np.argmax a = Ok k' ->
  (k < length a)%nat ->
  (forall j, (j < length a)%nat -> nth j a 0 <= nth k a 0) ->
  (forall j, (j < k)%nat -> nth j a 0 < nth k a 0) ->
  k' = k.
Proof.
  intros H Lk Hmax Hfirst.
  apply argmax_spec in H as (Lk' & Hmax' & Hfirst').
  destruct (Nat.lt_trichotomy k' k) as [L|[E|L]]; [exfalso | exact E | exfalso].
  - specialize (Hfirst k' L); specialize (Hmax' k Lk); lra.
  - specialize (Hfirst' k L); specialize (Hmax k' Lk'); lra.
Qed.

(** C3, as the code has it.  Whenever both versions return they return the
    same strain-rate array, each with the absolute value of its own entry
    as [K], so the same index gives the same [K].  They return the same
    index and [K] exactly when the scan's stop lies before the selection's
    [minVelocityPoint], no point before [minVelocityPoint] has a larger
    |strain rate| and no point before the stop has one as large.  When the
    strain rate at the inlet is not positive, that is: exactly when the stop
    lies before [minVelocityPoint] and no point between the two has a larger
    |strain rate|. *)
Theorem versions_related (f : Flame) (sr1 sr2 : list Q) (p1 p2 : nat)
        (K1 K2 : Q) :
  ExtinctionStrainRate.computeStrainRates f = Ok (sr1, p1, K1) ->
  TwinPremixedESR.computeStrainRates f = Ok (sr2, p2, K2) ->
  sr1 = sr2 /\
  K1 = Qabs (nth p1 sr1 0) /\
  K2 = Qabs (nth p2 sr1 0) /\
  (p1 = p2 -> K1 = K2) /\
  exists maxStrLocation minVelocityPoint,
    np.argmax (np.absolute sr1) = Ok maxStrLocation /\
    np.argmin (py.upto (u f) maxStrLocation) = Ok minVelocityPoint /\
    (p2 = p1 /\ K2 = K1 <->
     (p1 < minVelocityPoint)%nat /\
     (forall j, (j < minVelocityPoint)%nat ->
                Qabs (nth j sr1 0) <= Qabs (nth p1 sr1 0)) /\
     (forall j, (j < p1)%nat -> Qabs (nth j sr1 0) < Qabs (nth p1 sr1 0))) /\
    (nth 0 sr1 0 <= 0 ->
     (p2 = p1 /\ K2 = K1 <->
      (p1 < minVelocityPoint)%nat /\
      (forall j, (p1 < j < minVelocityPoint)%nat ->
                 Qabs (nth j sr1 0) <= Qabs (nth p1 sr1 0)))).
Proof.
  intros H1 H2.
  apply scan_computeStrainRates_inv in H1 as (Hd1 & Hs & ->).
  apply selection_inv in H2 as (Hd2 & -> & msl & mvp & Hmsl & Hmvp & Hp
                                & Lp & Lmsl).
  assert (sr1 = sr2) as <- by congruence.
  split; [reflexivity|]; split; [reflexivity|]; split; [reflexivity|].
  split; [intros ->; reflexivity|].
  exists msl, mvp; split; [exact Hmsl|]; split; [exact Hmvp|].
  apply scan_while_inv in Hs as (_ & Lp1 & Hdec & _).
  assert (La : length (np.absolute (py.upto sr1 mvp)) = mvp).
  { unfold np.absolute; rewrite length_map, upto_length; lia. }
  assert (Hiff :
    p2 = p1 /\ Qabs (nth p2 sr1 0) = Qabs (nth p1 sr1 0) <->
    (p1 < mvp)%nat /\
    (forall j, (j < mvp)%nat -> Qabs (nth j sr1 0) <= Qabs (nth p1 sr1 0)) /\
    (forall j, (j < p1)%nat -> Qabs (nth j sr1 0) < Qabs (nth p1 sr1 0))).
  { split.
    - intros (E & _); subst p2.
      pose proof (argmax_spec _ _ Hp) as (_ & Hmax & Hfirst).
      rewrite La in Hmax.
      split; [lia|]; split.
      + intros j Hj; specialize (Hmax j Hj).
        rewrite !absolute_nth, !upto_nth in Hmax by lia; exact Hmax.
      + intros j Hj; specialize (Hfirst j Hj).
        rewrite !absolute_nth, !upto_nth in Hfirst by lia; exact Hfirst.
    - intros (L & Hmax & Hfirst).
      assert (p2 = p1) as ->; [|split; reflexivity].
      apply (argmax_unique _ _ _ Hp).
      + rewrite La; exact L.
      + rewrite La; intros j Hj.
        rewrite !absolute_nth, !upto_nth by lia; apply Hmax; exact Hj.
      + intros j Hj.
        rewrite !absolute_nth, !upto_nth by lia; apply Hfirst; exact Hj. }
  split; [exact Hiff|].
  intros Hin.
  assert (Hrise : forall j, (j < p1)%nat ->
                            Qabs (nth j sr1 0) < Qabs (nth p1 sr1 0)).
  { apply magnitudes_rise; [|exact Hin].
    intros m Hm; apply Hdec; lia. }
  rewrite Hiff; split.
  - intros (L & Hmax & _); split; [exact L|].
    intros j Hj; apply Hmax; lia.
  - intros (L & Hbetween); split; [exact L|]; split; [|exact Hrise].
    intros j Hj.
    destruct (Nat.lt_trichotomy j p1) as [Lj|[->|Lj]].
    + apply Qlt_le_weak, Hrise; exact Lj.
    + apply Qle_refl.
    + apply Hbetween; lia.
Qed.

Lemma versions_related_witness :
  [-1; -3; -2; -1; 1; 8; 0; 0] = [-1; -3; -2; -1; 1; 8; 0; 0] /\
  3 = Qabs (nth 1 [-1; -3; -2; -1; 1; 8; 0; 0] 0) /\
  3 = Qabs (nth 1 [-1; -3; -2; -1; 1; 8; 0; 0] 0) /\
  (1%nat = 1%nat -> 3 = 3) /\
  exists maxStrLocation minVelocityPoint,
    np.argmax (np.absolute [-1; -3; -2; -1; 1; 8; 0; 0]) = Ok maxStrLocation /\
    np.argmin (py.upto (u late_minimum) maxStrLocation)
    = Ok minVelocityPoint /\
    (1%nat = 1%nat /\ 3 = 3 <->
     (1 < minVelocityPoint)%nat /\
     (forall j, (j < minVelocityPoint)%nat ->
                Qabs (nth j [-1; -3; -2; -1; 1; 8; 0; 0] 0)
                <= Qabs (nth 1 [-1; -3; -2; -1; 1; 8; 0; 0] 0)) /\
     (forall j, (j < 1)%nat ->
                Qabs (nth j [-1; -3; -2; -1; 1; 8; 0; 0] 0)
                < Qabs (nth 1 [-1; -3; -2; -1; 1; 8; 0; 0] 0))) /\
    (nth 0 [-1; -3; -2; -1; 1; 8; 0; 0] 0 <= 0 ->
     (1%nat = 1%nat /\ 3 = 3 <->
      (1 < minVelocityPoint)%nat /\
      (forall j, (1 < j < minVelocityPoint)%nat ->
                 Qabs (nth j [-1; -3; -2; -1; 1; 8; 0; 0] 0)
                 <= Qabs (nth 1 [-1; -3; -2; -1; 1; 8; 0; 0] 0)))).
Proof.
  apply (versions_related late_minimum
           [-1; -3; -2; -1; 1; 8; 0; 0] [-1; -3; -2; -1; 1; 8; 0; 0] 1 1 3 3);
    reflexivity.
Defined.

(** ** Where [computeStrainRates] is defined *)

(** C8 as stated fails for src/unnamed/part_000: the while loop never
    indexes past the end.  Even where every forward difference is smaller
    than the one before, the endpoint repeats the last one and the loop stops
    there; no flame on which [derivative] returns makes the call raise. *)
Lemma scan_never_overruns :
  ExtinctionStrainRate.computeStrainRates falling
  = Ok ([-1; -2; -3; -3], 2%nat, 3) /\
  ~ (exists f sr e,
       derivative (Float64 (grid f)) (Float64 (u f)) = Ok (Float64 sr) /\
       ExtinctionStrainRate.computeStrainRates f = Raise e) /\
  ~ (exists f sr,
       derivative (Float64 (grid f)) (Float64 (u f)) = Ok (Float64 sr) /\
       forall m, (S m < length sr)%nat -> nth (S m) sr 0 < nth m sr 0).
Proof.
  split; [reflexivity|]; split.
  - intros (f & sr & e & Hd & He).
    apply derivative_float64_Ok in Hd.
    destruct (scan_computeStrainRates_total f sr Hd) as (p & _ & Hp).
    congruence.
  - intros (f & sr & Hd & Hdec).
    apply derivative_float64_Ok in Hd.
    exact (derivative_not_strictly_decreasing _ _ _ Hd Hdec).
Qed.

(** C8, as the code has it.  On every flame on which [derivative] returns,
    the version of src/unnamed/part_000 returns, with the tested indices
    [n] and [n+1] in bounds.  The version of
    src/flames/twinPremixedESR.ipynb raises [ValueError] when the index of the
    largest |strain rate| is 0 and when the velocity minimum before it is at
    index 0; otherwise it returns and every index it uses is in bounds. *)
Theorem computeStrainRates_domain (f : Flame) (sr : list Q) :
  derivative (Float64 (grid f)) (Float64 (u f)) = Ok (Float64 sr) ->
  (exists p,
     ExtinctionStrainRate.computeStrainRates f
     = Ok (sr, p, Qabs (nth p sr 0)) /\
     (S p < length sr)%nat)
  /\
  (exists maxStrLocation,
     np.argmax (np.absolute sr) = Ok maxStrLocation /\
     (maxStrLocation < length sr)%nat /\
     (maxStrLocation = 0%nat ->
      TwinPremixedESR.computeStrainRates f = Raise ValueError) /\
     ((0 < maxStrLocation)%nat ->
      exists minVelocityPoint,
        np.argmin (py.upto (u f) maxStrLocation) = Ok minVelocityPoint /\
        (minVelocityPoint < maxStrLocation)%nat /\
        (minVelocityPoint = 0%nat ->
         TwinPremixedESR.computeStrainRates f = Raise ValueError) /\
        ((0 < minVelocityPoint)%nat ->
         exists p,
           (p < minVelocityPoint)%nat /\
           TwinPremixedESR.computeStrainRates f
           = Ok (sr, p, Qabs (nth p sr 0))))).
Proof.
  intros Hd; apply derivative_float64_Ok in Hd; split.
  - destruct (scan_computeStrainRates_total f sr Hd) as (p & Hs & Hp).
    exists p; split; [exact Hp|].
    apply scan_while_inv in Hs as (_ & Lp & _); exact Lp.
  - destruct (selection_cases f sr Hd) as (msl & Hmsl & Lmsl & Z0 & P0).
    exists msl; repeat split; auto.
    intros Pmsl; destruct (P0 Pmsl) as (mvp & Hmvp & Lmvp & Z1 & P1).
    exists mvp; repeat split; auto.
    intros Pmvp; destruct (P1 Pmvp) as (p & _ & Lp & Hp).
    exists p; split; auto.
Qed.

Lemma computeStrainRates_domain_witness :
  (exists p,
     ExtinctionStrainRate.computeStrainRates steep_inlet
     = Ok ([-10; 1; 0; 0], p, Qabs (nth p [-10; 1; 0; 0] 0)) /\
     (S p < 4)%nat) /\
  TwinPremixedESR.computeStrainRates steep_inlet = Raise ValueError /\
  TwinPremixedESR.computeStrainRates rising_inlet = Raise ValueError /\
  (exists p,
     (p < 2)%nat /\
     TwinPremixedESR.computeStrainRates profile6
     = Ok ([-1; -2; -1; 8; 0; 0], p, Qabs (nth p [-1; -2; -1; 8; 0; 0] 0))).
Proof.
  destruct (computeStrainRates_domain steep_inlet [-10; 1; 0; 0] eq_refl)
    as (Hscan & msl & Hmsl & _ & Z0 & _).
  destruct (computeStrainRates_domain rising_inlet [1; 9; 0; 0] eq_refl)
    as (_ & msl' & Hmsl' & _ & _ & P0).
  destruct (computeStrainRates_domain profile6 [-1; -2; -1; 8; 0; 0] eq_refl)
    as (_ & msl'' & Hmsl'' & _ & _ & P0'').
  injection Hmsl as <-; injection Hmsl' as <-; injection Hmsl'' as <-.
  split; [exact Hscan|]; split; [exact (Z0 eq_refl)|].
  destruct P0 as (mvp & Hmvp & _ & Z1 & _); [lia|].
  injection Hmvp as <-.
  split; [exact (Z1 eq_refl)|].
  destruct P0'' as (mvp'' & Hmvp'' & _ & _ & P1); [lia|].
  injection Hmvp'' as <-.
  apply P1; lia.
Defined.

(** ** [max], [min] and the trapezoidal rule *)

Lemma max_from_spec (l : list Q) (best : Q) :
  (py.max_from best l = best \/ In (py.max_from best l) l) /\
  best <= py.max_from best l /\
  forall t, In t l -> t <= py.max_from best l.
Proof.
  revert best; induction l as [|x l IH]; intros best; simpl.
  - repeat split; [left; reflexivity | lra | contradiction].
  - destruct (py.gt x best) eqn:G.
    + apply gt_true in G.
      destruct (IH x) as ([E|I] & Hb & Ht).
      * repeat split; [right; left; symmetry; exact E | lra |].
        intros t [<-|Ht']; [exact Hb | apply Ht; exact Ht'].
      * repeat split; [right; right; exact I | lra |].
        intros t [<-|Ht']; [exact Hb | apply Ht; exact Ht'].
    + apply gt_false in G.
      destruct (IH best) as ([E|I] & Hb & Ht).
      * repeat split; [left; exact E | exact Hb |].
        intros t [<-|Ht']; [lra | apply Ht; exact Ht'].
      * repeat split; [right; right; exact I | exact Hb |].
        intros t [<-|Ht']; [lra | apply Ht; exact Ht'].
Qed.

Lemma min_from_spec (l : list Q) (best : Q) :
  (py.min_from best l = best \/ In (py.min_from best l) l) /\
  py.min_from best l <= best /\
  forall t, In t l -> py.min_from best l <= t.
Proof.
  revert best; induction l as [|x l IH]; intros best; simpl.
  - repeat split; [left; reflexivity | lra | contradiction].
  - destruct (py.lt x best) eqn:G.
    + apply lt_true in G.
      destruct (IH x) as ([E|I] & Hb & Ht).
      * repeat split; [right; left; symmetry; exact E | lra |].
        intros t [<-|Ht']; [exact Hb | apply Ht; exact Ht'].
      * repeat split; [right; right; exact I | lra |].
        intros t [<-|Ht']; [exact Hb | apply Ht; exact Ht'].
    + apply lt_false in G.
      destruct (IH best) as ([E|I] & Hb & Ht).
      * repeat split; [left; exact E | exact Hb |].
        intros t [<-|Ht']; [lra | apply Ht; exact Ht'].
      * repeat split; [right; right; exact I | exact Hb |].
        intros t [<-|Ht']; [lra | apply Ht; exact Ht'].
Qed.

Lemma py_max_spec (l : list Q) :
  (1 <= length l)%nat -> exists m, py.max l = Ok m /\ is_max l m.
Proof.
  destruct l as [|x l]; simpl; intros H; [lia|].
  exists (py.max_from x l); split; [reflexivity|].
  destruct (max_from_spec l x) as (Hin & Hb & Ht); split.
  - exists (py.max_from x l); split; [|reflexivity].
    destruct Hin as [->|I]; [left; reflexivity | right; exact I].
  - intros t [<-|Ht']; [exact Hb | apply Ht; exact Ht'].
Qed.

Lemma py_min_spec (l : list Q) :
  (1 <= length l)%nat -> exists m, py.min l = Ok m /\ is_min l m.
Proof.
  destruct l as [|x l]; simpl; intros H; [lia|].
  exists (py.min_from x l); split; [reflexivity|].
  destruct (min_from_spec l x) as (Hin & Hb & Ht); split.
  - exists (py.min_from x l); split; [|reflexivity].
    destruct Hin as [->|I]; [left; reflexivity | right; exact I].
  - intros t [<-|Ht']; [exact Hb | apply Ht; exact Ht'].
Qed.

Lemma is_max_unique (l : list Q) (a b : Q) :
  is_max l a -> is_max l b -> a == b.
Proof.
  intros ((ta & Ia & Ea) & Ha) ((tb & Ib & Eb) & Hb).
  specialize (Ha tb Ib); specialize (Hb ta Ia); lra.
Qed.

Lemma is_min_unique (l : list Q) (a b : Q) :
  is_min l a -> is_min l b -> a == b.
Proof.
  intros ((ta & Ia & Ea) & Ha) ((tb & Ib & Eb) & Hb).
  specialize (Ha tb Ib); specialize (Hb ta Ia); lra.
Qed.

Lemma sum_below_ext (k : nat) (g h : nat -> Q) :
  (forall i, (i < k)%nat -> g i == h i) -> sum_below k g == sum_below k h.
Proof.
  induction k as [|k IH]; simpl; intros H; [reflexivity|].
  rewrite IH, (H k) by (intros; try apply H; lia); reflexivity.
Qed.

Lemma fold_left_Qplus (l : list Q) (a : Q) :
  fold_left Qplus l a == a + sum_below (length l) (fun i => nth i l 0).
Proof.
  induction l as [|x l IH] using rev_ind; simpl; [lra|].
  rewrite fold_left_app, length_app; simpl.
  replace (length l + 1)%nat with (S (length l)) by lia; simpl.
  rewrite IH, app_nth2, Nat.sub_diag by lia; simpl.
  rewrite (sum_below_ext (length l) (fun i => nth i (l ++ [x]) 0)
                         (fun i => nth i l 0)).
  - lra.
  - intros i Hi; rewrite app_nth1 by exact Hi; reflexivity.
Qed.

Lemma sum_nth (l : list Q) :
  np.sum l == sum_below (length l) (fun i => nth i l 0).
Proof. unfold np.sum; rewrite fold_left_Qplus; lra. Qed.

Lemma removelast_length (l : list Q) :
  length (removelast l) = (length l - 1)%nat.
Proof.
  rewrite removelast_firstn_len, length_firstn; lia.
Qed.

Lemma removelast_nth (l : list Q) (i : nat) :
  (S i < length l)%nat -> nth i (removelast l) 0 = nth i l 0.
Proof.
  intros H; rewrite removelast_firstn_len, nth_firstn.
  destruct (Nat.ltb_spec i (pred (length l))); [reflexivity | lia].
Qed.

Lemma tail_nth (l : list Q) (i : nat) : nth i (skipn 1 l) 0 = nth (S i) l 0.
Proof. destruct l as [|x l]; simpl; [destruct i|]; reflexivity. Qed.

(** [np.trapz] on arrays of one length is the trapezoidal rule. *)
Lemma trapz_trapezoidal_rule (y x : list Q) :
  length y = length x ->
  exists I, np.trapz y x = Ok I /\ I == trapezoidal_rule x y.
Proof.
  intros E; unfold np.trapz, np.add, np.multiply.
  rewrite broadcast_same
    by (rewrite length_skipn, removelast_length; reflexivity).
  cbn [bind].
  rewrite broadcast_same
    by (rewrite diff_length, length_map, length_combine, length_skipn,
          removelast_length; lia).
  cbn [bind].
  eexists; split; [reflexivity|].
  rewrite sum_nth; unfold trapezoidal_rule.
  rewrite !length_map, length_combine, diff_length, length_map,
    length_combine, length_skipn, removelast_length.
  replace (Nat.min (length x - 1)
             (Nat.min (length y - 1) (length y - 1))) with (length x - 1)%nat
    by lia.
  apply sum_below_ext; intros i Hi.
  rewrite (nth_map_in (fun v => v / 2) _ i 0 0)
    by (rewrite length_map, length_combine, diff_length, length_map,
          length_combine, length_skipn, removelast_length; lia).
  rewrite (nth_map_in (fun xy => fst xy * snd xy) _ i (0, 0) 0)
    by (rewrite length_combine, diff_length, length_map,
          length_combine, length_skipn, removelast_length; lia).
  rewrite combine_nth
    by (rewrite diff_length, length_map, length_combine, length_skipn,
          removelast_length; lia).
  rewrite (nth_map_in (fun xy => fst xy + snd xy) _ i (0, 0) 0)
    by (rewrite length_combine, length_skipn, removelast_length; lia).
  rewrite combine_nth
    by (rewrite length_skipn, removelast_length; reflexivity).
  cbn [fst snd].
  rewrite diff_nth, tail_nth, removelast_nth by lia.
  field.
Qed.

Lemma nonzero_true (v : Q) : nonzero v = true <-> ~ v == 0.
Proof.
  unfold nonzero; rewrite negb_true_iff; split; intros H.
  - intros E; apply Qeq_bool_iff in E; congruence.
  - destruct (Qeq_bool v 0) eqn:E; [|reflexivity].
    apply Qeq_bool_iff in E; contradiction.
Qed.

Lemma nonzero_false (v : Q) : nonzero v = false <-> v == 0.
Proof.
  unfold nonzero; rewrite negb_false_iff; apply Qeq_bool_iff.
Qed.

Lemma nonzero_Qeq (a b : Q) : a == b -> nonzero a = nonzero b.
Proof.
  intros E; destruct (nonzero b) eqn:B.
  - apply nonzero_true; apply nonzero_true in B; intros Z; apply B; lra.
  - apply nonzero_false; apply nonzero_false in B; lra.
Qed.

Lemma all_nonzero_false (l : list Q) :
  all_nonzero l = false -> exists c, In c l /\ c == 0.
Proof.
  induction l as [|x l IH]; simpl; intros H; [discriminate|].
  apply andb_false_iff in H as [H|H].
  - exists x; split; [left; reflexivity | apply nonzero_false; exact H].
  - destruct (IH H) as (c & I & Z); exists c; split; [right|]; assumption.
Qed.

Lemma divide_same_nonzero (a b : list Q) :
  length a = length b -> all_nonzero b = true ->
  exists q,
    np.divide a b = Ok q /\ length q = length a /\
    forall i, (i < length a)%nat -> nth i q 0 = nth i a 0 / nth i b 0.
Proof.
  intros E Hb; unfold np.divide.
  rewrite broadcast_same by exact E; cbn [bind].
  destruct (mapM_total (fun xy => py.div (fst xy) (snd xy)) (combine a b))
    as (q & Hq).
  { intros [x y] Hxy; apply in_combine_r in Hxy.
    eexists; apply div_nonzero, nonzero_true.
    unfold all_nonzero in Hb; rewrite forallb_forall in Hb.
    apply Hb; exact Hxy. }
  exists q; split; [exact Hq|].
  pose proof (mapM_length _ _ _ Hq) as Lq.
  rewrite length_combine, <- E, Nat.min_id in Lq.
  split; [exact Lq|].
  intros i Hi.
  apply (mapM_nth _ _ _ (0, 0) 0 i) in Hq;
    [|rewrite length_combine; lia].
  rewrite combine_nth in Hq by exact E.
  apply div_Ok_inv in Hq as (_ & ->); reflexivity.
Qed.

Lemma divide_same_zero (a b : list Q) :
  length a = length b -> all_nonzero b = false ->
  np.divide a b = Beyond NonFinite.
Proof.
  intros E Hb; unfold np.divide.
  rewrite broadcast_same by exact E; cbn [bind].
  apply all_nonzero_false in Hb as (c & Ic & Zc).
  apply (In_nth _ _ 0) in Ic as (i & Hi & Hc).
  apply (mapM_stops _ _ (nth i a 0, nth i b 0)).
  - intros [x y] _; simpl.
    destruct (Qeq_bool y 0) eqn:Y.
    + right; unfold py.div; rewrite Y; reflexivity.
    + left; eexists; unfold py.div; rewrite Y; reflexivity.
  - rewrite <- combine_nth by exact E.
    apply nth_In; rewrite length_combine; lia.
  - simpl; apply div_zero; rewrite Hc; exact Zc.
Qed.

(** ** [computeConsumptionSpeed] *)

(** C4.  [computeConsumptionSpeed] integrates by the trapezoidal rule: for
    a flame whose arrays [T], [density], [heat_release_rate], [cp] and [grid]
    have one length [n >= 2] and whose largest and smallest temperatures [Tb]
    and [Tu] differ, it returns [Sc = I / (Tb - Tu) / rho_u], where [rho_u] is
    the largest density and [I] is the trapezoidal-rule sum of
    [heat_release_rate / cp] over [grid].  (A zero in [cp] or a zero [rho_u]
    takes the quotient outside the rationals; the model then stops.) *)
Theorem computeConsumptionSpeed_trapezoidal (f : Flame) (n : nat)
        (Tb Tu rho_u : Q) :
  length (T f) = n -> length (density f) = n ->
  length (heat_release_rate f) = n -> length (cp f) = n ->
  length (grid f) = n -> (2 <= n)%nat ->
  is_max (T f) Tb -> is_min (T f) Tu -> is_max (density f) rho_u ->
  ~ Tb == Tu ->
  if all_nonzero (cp f) && nonzero rho_u
  then exists integrand I Sc,
         length integrand = n /\
         (forall i, (i < n)%nat ->
            nth i integrand 0
            = nth i (heat_release_rate f) 0 / nth i (cp f) 0) /\
         I = trapezoidal_rule (grid f) integrand /\
         computeConsumptionSpeed f = Ok Sc /\
         Sc == I / (Tb - Tu) / rho_u
  else computeConsumptionSpeed f = Beyond NonFinite.
Proof.
  intros LT Ld Lh Lc Lg Hn HTb HTu Hrho Hne.
  unfold computeConsumptionSpeed.
  destruct (py_max_spec (T f)) as (Tb' & -> & HTb'); [lia|].
  destruct (py_min_spec (T f)) as (Tu' & -> & HTu'); [lia|].
  destruct (py_max_spec (density f)) as (rho' & -> & Hrho'); [lia|].
  cbn [bind].
  pose proof (is_max_unique _ _ _ HTb' HTb) as ETb.
  pose proof (is_min_unique _ _ _ HTu' HTu) as ETu.
  pose proof (is_max_unique _ _ _ Hrho' Hrho) as Erho.
  destruct (all_nonzero (cp f)) eqn:Hcp; cbn [andb].
  2:{ rewrite divide_same_zero by (auto; congruence); reflexivity. }
  destruct (divide_same_nonzero (heat_release_rate f) (cp f))
    as (q & -> & Lq & Hq); [congruence | exact Hcp |].
  cbn [bind].
  destruct (trapz_trapezoidal_rule q (grid f)) as (I & -> & HI);
    [congruence|].
  cbn [bind].
  rewrite div_nonzero by (intros Z; apply Hne; lra).
  cbn [bind].
  rewrite <- (nonzero_Qeq _ _ Erho).
  destruct (nonzero rho') eqn:R.
  - apply nonzero_true in R.
    rewrite div_nonzero by exact R.
    exists q, (trapezoidal_rule (grid f) q), (I / (Tb' - Tu') / rho').
    repeat split; try congruence.
    + intros i Hi; apply Hq; lia.
    + rewrite HI, ETb, ETu, Erho; reflexivity.
  - apply nonzero_false in R.
    apply div_zero; exact R.
Qed.

Lemma computeConsumptionSpeed_trapezoidal_witness :
  exists integrand I Sc,
    length integrand = 6%nat /\
    (forall i, (i < 6)%nat ->
       nth i integrand 0
       = nth i (heat_release_rate profile6) 0 / nth i (cp profile6) 0) /\
    I = trapezoidal_rule (grid profile6) integrand /\
    computeConsumptionSpeed profile6 = Ok Sc /\
    Sc == I / (2000 - 300) / 4.
Proof.
  apply (computeConsumptionSpeed_trapezoidal profile6 6 2000 300 4);
    try reflexivity; try lia.
  - split; [exists 2000; split; [simpl; tauto | reflexivity]|].
    simpl; intros t Ht; repeat destruct Ht as [<-|Ht]; try contradiction;
      unfold Qle; simpl; lia.
  - split; [exists 300; split; [simpl; tauto | reflexivity]|].
    simpl; intros t Ht; repeat destruct Ht as [<-|Ht]; try contradiction;
      unfold Qle; simpl; lia.
  - split; [exists 4; split; [simpl; tauto | reflexivity]|].
    simpl; intros t Ht; repeat destruct Ht as [<-|Ht]; try contradiction;
      unfold Qle; simpl; lia.
  - unfold Qeq; simpl; lia.
Defined.

(** ** Runs *)

Lemma bindM_Ok {W A B : Type} (c : M W A) (k : A -> M W B) s a s' :
  c s = (Ok a, s') -> bindM c k s = k a s'.
Proof. intros H; unfold bindM; rewrite H; reflexivity. Qed.

Lemma bindM_Raise {W A B : Type} (c : M W A) (k : A -> M W B) s e s' :
  c s = (Raise e, s') -> bindM c k s = (Raise e, s').
Proof. intros H; unfold bindM; rewrite H; reflexivity. Qed.

Lemma perform_Ok {W : Type} (ext : Externals W) ev w w' lg :
  call ext ev w = (Ok tt, w') ->
  perform ext ev (w, lg) = (Ok tt, (w', lg ++ [ev])).
Proof. intros H; unfold perform; simpl; rewrite H; reflexivity. Qed.

Lemma run_calls_cons {W : Type} (ext : Externals W) ev evs (w w' : W) :
  run_calls ext (ev :: evs) w = (Ok tt, w') ->
  exists w1, call ext ev w = (Ok tt, w1) /\ run_calls ext evs w1 = (Ok tt, w').
Proof.
  simpl; destruct (call ext ev w) as [[[]| |] w1] eqn:E; intros H;
    try discriminate.
  exists w1; split; [reflexivity | exact H].
Qed.

Lemma run_calls_nil {W : Type} (ext : Externals W) (w w' : W) :
  run_calls ext [] w = (Ok tt, w') -> w' = w.
Proof. simpl; intros H; injection H as <-; reflexivity. Qed.

Lemma emits_perform {W : Type} (ext : Externals W) (ev : Event) :
  emits (perform ext ev) [name ev].
Proof.
  intros [w lg]; exists [ev]; unfold perform; simpl.
  destruct (call ext ev w) as [r w']; simpl.
  repeat split; auto; exists []; reflexivity.
Qed.

Lemma emits_quiet {W A : Type} (c : M W A) :
  (forall s, snd (c s) = s) -> emits c [].
Proof.
  intros H s; exists []; rewrite H, app_nil_r.
  repeat split; auto; exists []; reflexivity.
Qed.

Lemma emits_bind {W A B : Type} (c : M W A) (k : A -> M W B)
      (n1 n2 : list string) :
  emits c n1 -> (forall a, emits (k a) n2) -> emits (bindM c k) (n1 ++ n2).
Proof.
  intros Hc Hk s; unfold bindM.
  destruct (Hc s) as (l1 & E1 & (r1 & P1) & F1).
  destruct (c s) as [[a|e|b] s1] eqn:Ec; simpl in *.
  - destruct (Hk a s1) as (l2 & E2 & (r2 & P2) & F2).
    exists (l1 ++ l2); rewrite E2, E1, map_app, (F1 a eq_refl), app_assoc.
    repeat split; auto.
    + exists r2; rewrite <- app_assoc, <- P2; reflexivity.
    + intros b Hb; rewrite (F2 b Hb); reflexivity.
  - exists l1; repeat split; auto; [|discriminate].
    exists (r1 ++ n2); rewrite app_assoc, <- P1; reflexivity.
  - exists l1; repeat split; auto; [|discriminate].
    exists (r1 ++ n2); rewrite app_assoc, <- P1; reflexivity.
Qed.

Lemma emits_perform_bind {W B : Type} (ext : Externals W) (ev : Event)
      (k : unit -> M W B) (ns : list string) :
  (forall a, emits (k a) ns) -> emits (bindM (perform ext ev) k) (name ev :: ns).
Proof. intros H; apply (emits_bind _ _ [name ev] ns (emits_perform ext ev) H). Qed.

Lemma emits_read_bind {W A B : Type} (g : W -> A) (k : A -> M W B)
      (ns : list string) :
  (forall a, emits (k a) ns) -> emits (bindM (read g) k) ns.
Proof.
  intros H; apply (emits_bind _ _ [] ns); [|exact H].
  apply emits_quiet; reflexivity.
Qed.

Lemma emits_lift_bind {W A B : Type} (c : outcome A) (k : A -> M W B)
      (ns : list string) :
  (forall a, emits (k a) ns) -> emits (bindM (lift c) k) ns.
Proof.
  intros H; apply (emits_bind _ _ [] ns); [|exact H].
  apply emits_quiet; reflexivity.
Qed.

Lemma emits_ret {W A : Type} (a : A) : emits (@ret W A a) [].
Proof. apply emits_quiet; reflexivity. Qed.

Ltac emits_steps :=
  repeat first
    [ apply emits_ret
    | apply emits_perform
    | apply emits_perform_bind; intros ?
    | apply emits_read_bind; intros ?
    | apply emits_lift_bind; intros [[? ?] ?]
    | apply emits_lift_bind; intros ? ].

Lemma solveOpposedFlame_emits {W : Type} (ext : Externals W)
      (csr : Flame -> outcome (list Q * nat * Q))
      (massFlux : Q) (loglevel : Z) (ratio slope curve prune : Q) :
  emits (solveOpposedFlame_of ext csr massFlux loglevel ratio slope curve prune)
        solver_names.
Proof. unfold solveOpposedFlame_of, solver_names; emits_steps. Qed.

Lemma plotting_preferences_emits {W : Type} (ext : Externals W) :
  emits (plotting_preferences ext) (repeat "plt.rcParams"%string 7).
Proof. unfold plotting_preferences; simpl; emits_steps. Qed.

Lemma part_000_emits {W : Type} (ext : Externals W) :
  emits (ExtinctionStrainRate.notebook ext) part_000_names.
Proof.
  unfold ExtinctionStrainRate.notebook, ExtinctionStrainRate.cell_import,
    ExtinctionStrainRate.cell_user_variables, ExtinctionStrainRate.cell_run,
    ExtinctionStrainRate.solveOpposedFlame, part_000_names.
  apply (emits_bind _ _ ["print"%string]); [apply emits_perform | intros _].
  apply (emits_bind _ _ ["ct.Solution"; "gas.TPX"]%string);
    [emits_steps | intros [width massFlux]].
  apply (emits_bind _ _
           ("ct.CounterflowTwinPremixedFlame"%string :: solver_names ++
            ["oppFlame.write_csv"; "print"; "print"; "print"]%string));
    [|intros _; apply plotting_preferences_emits].
  apply emits_perform_bind; intros _.
  apply emits_bind; [apply solveOpposedFlame_emits | intros [[Tpeak K] p]].
  emits_steps.
Qed.

Lemma twinPremixedESR_emits {W : Type} (ext : Externals W) :
  emits (TwinPremixedESR.notebook ext) twinPremixedESR_names.
Proof.
  unfold TwinPremixedESR.notebook, TwinPremixedESR.cell_import,
    TwinPremixedESR.cell_reactants, TwinPremixedESR.cell_flame,
    TwinPremixedESR.cell_run, TwinPremixedESR.cell_report,
    TwinPremixedESR.solveOpposedFlame, twinPremixedESR_names.
  apply (emits_bind _ _ ["print"%string]); [apply emits_perform | intros _].
  apply (emits_bind _ _
           ["ct.Solution"; "gas.set_equivalence_ratio"; "gas.TP"]%string);
    [emits_steps | intros massFlux].
  apply (emits_bind _ _ ["ct.CounterflowTwinPremixedFlame"%string]);
    [apply emits_perform | intros _].
  apply (emits_bind _ _ (solver_names ++ ["oppFlame.write_csv"%string]));
    [|intros [[Tpeak K] p]].
  { apply emits_bind; [apply solveOpposedFlame_emits | intros r].
    emits_steps. }
  apply (emits_bind _ _ ["print"; "print"; "print"]%string);
    [emits_steps | intros Sc].
  apply emits_bind; [apply plotting_preferences_emits | intros _].
  apply (emits_bind _ _
           ["plt.figure"; "plt.plot"; "plt.xlim"; "plt.xlabel"; "plt.ylabel";
            "plt.plot"; "plt.annotate"]%string).
  { unfold TwinPremixedESR.cell_axial_velocity_plot; emits_steps. }
  intros _.
  apply (emits_bind _ _
           ["plt.figure"; "plt.plot"; "plt.xlim"; "plt.xlabel";
            "plt.ylabel"]%string).
  { unfold TwinPremixedESR.cell_temperature_plot; emits_steps. }
  intros _.
  unfold TwinPremixedESR.cell_species_plot; emits_steps.
Qed.

Lemma np_max_spec (l : list Q) (m : Q) : np.max l = Ok m -> is_max l m.
Proof.
  intros H; destruct l as [|x l]; [discriminate|].
  destruct (py_max_spec (x :: l)) as (m' & Hm & Hmax); [simpl; lia|].
  simpl in H, Hm; congruence.
Qed.

(** ** [solveOpposedFlame] *)

Ltac case_calls ext :=
  repeat match goal with
         | |- context [call ext ?e ?w] =>
             destruct (call ext e w) as [[[]| |] ?] eqn:?; cbn
         end.

(** C6.  [solveOpposedFlame] hands the solver exactly its arguments and
    returns what was solved: the calls it makes on the flame object are, in
    this order, the assignment of [massFlux] to the reactants' mass flux,
    [set_refine_criteria(ratio, slope, curve, prune)], [show_solution] and
    [solve(loglevel, auto=True)], so both settings precede the solver; and it
    returns exactly when these calls and the two evaluations return, with
    the triple (largest temperature, [K], [strainRatePoint]) computed by
    [computeStrainRates] and [np.max] on the arrays the flame object holds
    after [solve]. *)
Theorem solveOpposedFlame_inputs_outputs {W : Type} (ext : Externals W)
        (computeStrainRates : Flame -> outcome (list Q * nat * Q))
        (massFlux : Q) (loglevel : Z) (ratio slope curve prune : Q)
        (w : W) (lg : list Event) :
  let calls := solver_calls massFlux loglevel ratio slope curve prune in
  let run := solveOpposedFlame_of ext computeStrainRates massFlux loglevel
               ratio slope curve prune (w, lg) in
  (exists k, snd (snd run) = lg ++ firstn k calls) /\
  (forall w4 sr p K Tmax,
     run_calls ext calls w = (Ok tt, w4) ->
     computeStrainRates (oppFlame ext w4) = Ok (sr, p, K) ->
     np.max (T (oppFlame ext w4)) = Ok Tmax ->
     run = (Ok (Tmax, K, p), (w4, lg ++ calls)) /\
     is_max (T (oppFlame ext w4)) Tmax) /\
  (forall Tmax K p,
     fst run = Ok (Tmax, K, p) ->
     exists w4 sr,
       run_calls ext calls w = (Ok tt, w4) /\
       computeStrainRates (oppFlame ext w4) = Ok (sr, p, K) /\
       np.max (T (oppFlame ext w4)) = Ok Tmax /\
       snd run = (w4, lg ++ calls)).
Proof.
  intros calls run; subst calls run.
  unfold solveOpposedFlame_of, solver_calls, bindM, perform, read, lift, ret.
  cbn.
  split; [|split].
  - case_calls ext;
      repeat match goal with
             | |- context [computeStrainRates ?f] =>
                 destruct (computeStrainRates f) as [[[? ?] ?]| |]; cbn
             | |- context [np.max ?t] => destruct (np.max t); cbn
             end;
      rewrite <- ?app_assoc; cbn;
      first [ exists 1%nat; reflexivity | exists 2%nat; reflexivity
            | exists 3%nat; reflexivity | exists 4%nat; reflexivity ].
  - intros w4 sr p K Tmax Hcalls Hsr Hmax.
    split; [|apply np_max_spec; exact Hmax].
    case_calls ext; try discriminate.
    injection Hcalls as ->.
    rewrite Hsr; cbn; rewrite Hmax; cbn.
    rewrite <- !app_assoc; reflexivity.
  - intros Tmax K p.
    case_calls ext; try discriminate.
    match goal with
    | |- context [computeStrainRates ?f] =>
        destruct (computeStrainRates f) as [[[sr p'] K']| |] eqn:Hsr; cbn
    end; try discriminate.
    match goal with
    | |- context [np.max ?t] => destruct (np.max t) eqn:Hmax; cbn
    end; try discriminate.
    intros H; injection H as -> -> ->.
    eexists; exists sr; repeat split; eauto.
    rewrite <- !app_assoc; reflexivity.
Qed.

Lemma solveOpposedFlame_inputs_outputs_witness :
  ExtinctionStrainRate.solveOpposedFlame (stub (Ok tt) profile6)
    2 0%Z 2 (3 # 10) (3 # 10) (5 # 100) (unsolved, [])
  = (Ok (2000, 2, 1%nat),
     (profile6,
      [reactants_set_mdot 2; set_refine_criteria 2 (3 # 10) (3 # 10) (5 # 100);
       show_solution; solve 0 true])) /\
  is_max (T profile6) 2000.
Proof.
  apply (proj1 (proj2
           (solveOpposedFlame_inputs_outputs (stub (Ok tt) profile6)
              ExtinctionStrainRate.computeStrainRates
              2 0%Z 2 (3 # 10) (3 # 10) (5 # 100) unsolved []))
           profile6 [-1; -2; -1; 8; 0; 0] 1%nat 2 2000);
    reflexivity.
Defined.

(** ** Exceptions *)

Lemma count_prefix (names l rest : list string) (n : string) :
  names = l ++ rest ->
  (count_occ string_dec l n <= count_occ string_dec names n)%nat.
Proof. intros ->; rewrite count_occ_app; lia. Qed.

Ltac propagate :=
  intros;
  repeat match goal with
         | H : _ = Ok _ |- _ => rewrite H; clear H; cbn [bind]
         | H : _ = Raise _ |- _ => rewrite H; clear H; cbn [bind]
         end;
  reflexivity.

(** C5.  Nothing in the notebooks catches an exception.  An exception
    raised by a step of [derivative], [computeStrainRates] or
    [computeConsumptionSpeed] is the outcome of that function; an exception
    out of [derivative] is the outcome of [computeStrainRates]; an exception
    raised by an external call of [solveOpposedFlame] (the solver's
    included), by [computeStrainRates] or by [np.max] is the outcome of
    [solveOpposedFlame] and of the notebook cell that called it, and the flame
    object and the calls made are then exactly as the raising step left them;
    and no run of a notebook calls [solve] twice. *)
Theorem exceptions_propagate {W : Type} (ext : Externals W) (e : exn) :
  (* derivative *)
  ((forall x y,
      nd.true_divide (nd.diff y) (nd.diff x) = Raise e ->
      derivative x y = Raise e) /\
   (forall x y q,
      nd.true_divide (nd.diff y) (nd.diff x) = Ok q ->
      nd.set_init (nd.zeros (nd.len y) (nd.dtype_of y)) q = Raise e ->
      derivative x y = Raise e) /\
   (forall x y q d,
      nd.true_divide (nd.diff y) (nd.diff x) = Ok q ->
      nd.set_init (nd.zeros (nd.len y) (nd.dtype_of y)) q = Ok d ->
      nd.getitem y (-1) = Raise e \/
      (exists y1, nd.getitem y (-1) = Ok y1 /\
                  (nd.getitem y (-2) = Raise e \/
                   exists y2, nd.getitem y (-2) = Ok y2 /\
                              (nd.getitem x (-1) = Raise e \/
                               exists x1, nd.getitem x (-1) = Ok x1 /\
                                          nd.getitem x (-2) = Raise e))) ->
      derivative x y = Raise e)) /\
  (* computeStrainRates *)
  ((forall f,
      derivative (Float64 (grid f)) (Float64 (u f)) = Raise e ->
      ExtinctionStrainRate.computeStrainRates f = Raise e /\
      TwinPremixedESR.computeStrainRates f = Raise e) /\
   (forall f (sr : ndarray),
      derivative (Float64 (grid f)) (Float64 (u f)) = Ok sr ->
      ExtinctionStrainRate.scan_while (S (length sr)) sr 0 = Raise e ->
      ExtinctionStrainRate.computeStrainRates f = Raise e) /\
   (forall f (sr : ndarray),
      derivative (Float64 (grid f)) (Float64 (u f)) = Ok sr ->
      np.argmax (np.absolute sr) = Raise e ->
      TwinPremixedESR.computeStrainRates f = Raise e) /\
   (forall f (sr : ndarray) maxStrLocation,
      derivative (Float64 (grid f)) (Float64 (u f)) = Ok sr ->
      np.argmax (np.absolute sr) = Ok maxStrLocation ->
      np.argmin (py.upto (u f) maxStrLocation) = Raise e ->
      TwinPremixedESR.computeStrainRates f = Raise e) /\
   (forall f (sr : ndarray) maxStrLocation minVelocityPoint,
      derivative (Float64 (grid f)) (Float64 (u f)) = Ok sr ->
      np.argmax (np.absolute sr) = Ok maxStrLocation ->
      np.argmin (py.upto (u f) maxStrLocation) = Ok minVelocityPoint ->
      np.argmax (np.absolute (py.upto sr minVelocityPoint)) = Raise e ->
      TwinPremixedESR.computeStrainRates f = Raise e)) /\
  (* computeConsumptionSpeed *)
  ((forall f, py.max (T f) = Raise e -> computeConsumptionSpeed f = Raise e) /\
   (forall f Tb,
      py.max (T f) = Ok Tb -> py.min (T f) = Raise e ->
      computeConsumptionSpeed f = Raise e) /\
   (forall f Tb Tu,
      py.max (T f) = Ok Tb -> py.min (T f) = Ok Tu ->
      py.max (density f) = Raise e ->
      computeConsumptionSpeed f = Raise e) /\
   (forall f Tb Tu rho_u,
      py.max (T f) = Ok Tb -> py.min (T f) = Ok Tu ->
      py.max (density f) = Ok rho_u ->
      np.divide (heat_release_rate f) (cp f) = Raise e ->
      computeConsumptionSpeed f = Raise e) /\
   (forall f Tb Tu rho_u integrand,
      py.max (T f) = Ok Tb -> py.min (T f) = Ok Tu ->
      py.max (density f) = Ok rho_u ->
      np.divide (heat_release_rate f) (cp f) = Ok integrand ->
      np.trapz integrand (grid f) = Raise e ->
      computeConsumptionSpeed f = Raise e)) /\
  (* solveOpposedFlame and the cells that call it *)
  (forall computeStrainRates massFlux loglevel ratio slope curve prune
          (w : W) lg,
     let calls := solver_calls massFlux loglevel ratio slope curve prune in
     let run := solveOpposedFlame_of ext computeStrainRates massFlux loglevel
                  ratio slope curve prune (w, lg) in
     (forall pre ev post w1 w2,
        calls = pre ++ ev :: post ->
        run_calls ext pre w = (Ok tt, w1) ->
        call ext ev w1 = (Raise e, w2) ->
        run = (Raise e, (w2, lg ++ pre ++ [ev]))) /\
     (forall w4,
        run_calls ext calls w = (Ok tt, w4) ->
        computeStrainRates (oppFlame ext w4) = Raise e ->
        run = (Raise e, (w4, lg ++ calls))) /\
     (forall w4 r,
        run_calls ext calls w = (Ok tt, w4) ->
        computeStrainRates (oppFlame ext w4) = Ok r ->
        np.max (T (oppFlame ext w4)) = Raise e ->
        run = (Raise e, (w4, lg ++ calls)))) /\
  (forall massFlux s s',
     TwinPremixedESR.solveOpposedFlame ext massFlux 1%Z default_ratio
       default_slope default_curve default_prune s = (Raise e, s') ->
     TwinPremixedESR.cell_run ext massFlux s = (Raise e, s')) /\
  (forall width massFlux (w w1 : W) lg s',
     call ext (ct_CounterflowTwinPremixedFlame width) w = (Ok tt, w1) ->
     ExtinctionStrainRate.solveOpposedFlame ext massFlux 0%Z default_ratio
       default_slope default_curve default_prune
       (w1, lg ++ [ct_CounterflowTwinPremixedFlame width]) = (Raise e, s') ->
     ExtinctionStrainRate.cell_run ext width massFlux (w, lg)
     = (Raise e, s')) /\
  (* no retry *)
  (forall s,
     (count_occ string_dec
        (map name (skipn (length (snd s))
                     (snd (snd (TwinPremixedESR.notebook ext s)))))
        "oppFlame.solve"%string <= 1)%nat /\
     (count_occ string_dec
        (map name (skipn (length (snd s))
                     (snd (snd (ExtinctionStrainRate.notebook ext s)))))
        "oppFlame.solve"%string <= 1)%nat).
Proof.
  repeat match goal with |- _ /\ _ => split end.
  - unfold derivative; propagate.
  - unfold derivative; propagate.
  - unfold derivative; intros x y q d Hq Hd H.
    rewrite Hq; cbn [bind]; rewrite Hd; cbn [bind].
    destruct H as [H|(y1 & Hy1 & [H|(y2 & Hy2 & [H|(x1 & Hx1 & H)])])];
      propagate.
  - intros f H; split.
    + unfold ExtinctionStrainRate.computeStrainRates; propagate.
    + unfold TwinPremixedESR.computeStrainRates; propagate.
  - unfold ExtinctionStrainRate.computeStrainRates; propagate.
  - unfold TwinPremixedESR.computeStrainRates; propagate.
  - unfold TwinPremixedESR.computeStrainRates; propagate.
  - unfold TwinPremixedESR.computeStrainRates; propagate.
  - unfold computeConsumptionSpeed; propagate.
  - unfold computeConsumptionSpeed; propagate.
  - unfold computeConsumptionSpeed; propagate.
  - unfold computeConsumptionSpeed; propagate.
  - unfold computeConsumptionSpeed; propagate.
  - intros csr massFlux loglevel ratio slope curve prune w lg calls run.
    subst calls run.
    unfold solveOpposedFlame_of, solver_calls, bindM, perform, read, lift, ret.
    cbn.
    repeat match goal with |- _ /\ _ => split end.
    + intros pre ev post w1 w2 Hsplit Hpre Hev.
      destruct pre as [|e1 [|e2 [|e3 [|e4 pre]]]]; cbn in Hsplit;
        injection Hsplit as ?; subst;
        try (destruct pre; discriminate);
        repeat (apply run_calls_cons in Hpre as (? & Hc & Hpre);
                rewrite Hc; clear Hc; cbn);
        apply run_calls_nil in Hpre as ->;
        rewrite Hev; cbn; rewrite <- ?app_assoc; reflexivity.
    + intros w4 Hcalls Hsr.
      case_calls ext; try discriminate.
      injection Hcalls as ->; rewrite Hsr; cbn.
      rewrite <- !app_assoc; reflexivity.
    + intros w4 [[sr p] K] Hcalls Hsr Hmax.
      case_calls ext; try discriminate.
      injection Hcalls as ->; rewrite Hsr; cbn; rewrite Hmax; cbn.
      rewrite <- !app_assoc; reflexivity.
  - intros massFlux s s' H.
    unfold TwinPremixedESR.cell_run.
    apply bindM_Raise; exact H.
  - intros width massFlux w w1 lg s' Hc H.
    unfold ExtinctionStrainRate.cell_run.
    rewrite (bindM_Ok _ _ _ tt (w1, lg ++ [ct_CounterflowTwinPremixedFlame width]))
      by (apply perform_Ok; exact Hc).
    apply bindM_Raise; exact H.
  - intros s; split.
    + destruct (twinPremixedESR_emits ext s) as (l & -> & (rest & P) & _).
      rewrite skipn_app, skipn_all, Nat.sub_diag; cbn [skipn app].
      rewrite (count_prefix _ _ _ "oppFlame.solve"%string P).
      vm_compute; lia.
    + destruct (part_000_emits ext s) as (l & -> & (rest & P) & _).
      rewrite skipn_app, skipn_all, Nat.sub_diag; cbn [skipn app].
      rewrite (count_prefix _ _ _ "oppFlame.solve"%string P).
      vm_compute; lia.
Qed.

Lemma exceptions_propagate_witness :
  ExtinctionStrainRate.solveOpposedFlame
    (stub (Raise (External "CanteraError")) profile6)
    2 0%Z 2 (3 # 10) (3 # 10) (5 # 100) (unsolved, [])
  = (Raise (External "CanteraError"),
     (unsolved,
      [reactants_set_mdot 2; set_refine_criteria 2 (3 # 10) (3 # 10) (5 # 100);
       show_solution; solve 0 true])).
Proof.
  pose proof (exceptions_propagate
                (stub (Raise (External "CanteraError")) profile6)
                (External "CanteraError")) as (_ & _ & _ & H & _).
  destruct (H ExtinctionStrainRate.computeStrainRates
              2 0%Z 2 (3 # 10) (3 # 10) (5 # 100) unsolved [])
    as (Hcall & _).
  exact (Hcall [reactants_set_mdot 2;
                set_refine_criteria 2 (3 # 10) (3 # 10) (5 # 100);
                show_solution]
           (solve 0 true) [] unsolved unsolved eq_refl eq_refl eq_refl).
Defined.

(** ** The notebooks from top to bottom *)

Ltac run_block H :=
  repeat (apply run_calls_cons in H as (? & ?Hc & H);
          match goal with
          | Hc' : call _ _ _ = (Ok tt, _) |- _ => rewrite Hc'; clear Hc'; cbn
          end);
  apply run_calls_nil in H; subst.

(** C7.  The notebooks run their steps in the stated order.  In every run,
    however it ends, the external calls made are the first so many of: the
    configuration of the gas, the creation of the one flame object, the four
    solver calls of [solveOpposedFlame], [write_csv], the three printed
    results and, last, the matplotlib calls; a run that returns makes them
    all.  In a run that returns, [computeStrainRates] (the finite-difference
    derivative) and [np.max] are evaluated on the arrays the flame object
    holds right after [solve], and [computeConsumptionSpeed] (the trapezoidal
    integration) on the arrays it holds after [write_csv]. *)
Theorem notebooks_run_in_order {W : Type} (ext : Externals W) :
  emits (ExtinctionStrainRate.notebook ext) part_000_names /\
  emits (TwinPremixedESR.notebook ext) twinPremixedESR_names /\
  (forall (w w_gas w_solved w_csv w_end : W) massFlux sr p K Tpeak Sc,
     run_calls ext
       [print_version; ct_Solution "gri30.cti";
        gas_set_TPX 300 101325 "CH4:0.75, O2:2, N2: 7.52"] w
     = (Ok tt, w_gas) ->
     massFlux = gas_density ext w_gas * 200 * (1 # 100) ->
     run_calls ext
       (ct_CounterflowTwinPremixedFlame (7 # 1000)
        :: solver_calls massFlux 0 default_ratio default_slope default_curve
             default_prune) w_gas
     = (Ok tt, w_solved) ->
     ExtinctionStrainRate.computeStrainRates (oppFlame ext w_solved)
     = Ok (sr, p, K) ->
     np.max (T (oppFlame ext w_solved)) = Ok Tpeak ->
     call ext (write_csv "premixed_twin_flame.csv" false) w_solved
     = (Ok tt, w_csv) ->
     computeConsumptionSpeed (oppFlame ext w_csv) = Ok Sc ->
     run_calls ext (report_calls Tpeak K Sc ++ preference_calls) w_csv
     = (Ok tt, w_end) ->
     ExtinctionStrainRate.notebook ext (w, [])
     = (Ok tt,
        (w_end,
         [print_version; ct_Solution "gri30.cti";
          gas_set_TPX 300 101325 "CH4:0.75, O2:2, N2: 7.52";
          ct_CounterflowTwinPremixedFlame (7 # 1000)]
         ++ solver_calls massFlux 0 default_ratio default_slope default_curve
              default_prune
         ++ [write_csv "premixed_twin_flame.csv" false]
         ++ report_calls Tpeak K Sc ++ preference_calls))) /\
  (forall (w w_gas w_solved w_csv w_report : W) massFlux sr p K Tpeak Sc,
     run_calls ext
       [print_version; ct_Solution "gri30.cti";
        gas_set_equivalence_ratio (75 # 100) "CH4"
          [("O2"%string, 1); ("N2"%string, 376 # 100)];
        gas_set_TP 300 101325] w
     = (Ok tt, w_gas) ->
     massFlux = gas_density ext w_gas * 2 ->
     run_calls ext
       (ct_CounterflowTwinPremixedFlame (25 # 1000)
        :: solver_calls massFlux 1 default_ratio default_slope default_curve
             default_prune) w_gas
     = (Ok tt, w_solved) ->
     TwinPremixedESR.computeStrainRates (oppFlame ext w_solved)
     = Ok (sr, p, K) ->
     np.max (T (oppFlame ext w_solved)) = Ok Tpeak ->
     call ext (write_csv "premixed_twin_flame.csv" false) w_solved
     = (Ok tt, w_csv) ->
     computeConsumptionSpeed (oppFlame ext w_csv) = Ok Sc ->
     run_calls ext (report_calls Tpeak K Sc) w_csv = (Ok tt, w_report) ->
     TwinPremixedESR.notebook ext (w, [])
     = (plotting_preferences ext ;;;
        TwinPremixedESR.cell_axial_velocity_plot ext p ;;;
        TwinPremixedESR.cell_temperature_plot ext ;;;
        TwinPremixedESR.cell_species_plot ext)
         (w_report,
          [print_version; ct_Solution "gri30.cti";
           gas_set_equivalence_ratio (75 # 100) "CH4"
             [("O2"%string, 1); ("N2"%string, 376 # 100)];
           gas_set_TP 300 101325;
           ct_CounterflowTwinPremixedFlame (25 # 1000)]
          ++ solver_calls massFlux 1 default_ratio default_slope
               default_curve default_prune
          ++ [write_csv "premixed_twin_flame.csv" false]
          ++ report_calls Tpeak K Sc)).
Proof.
  split; [apply part_000_emits|]; split; [apply twinPremixedESR_emits|].
  split.
  - intros w w_gas w_solved w_csv w_end massFlux sr p K Tpeak Sc
           Hgas -> Hsolve Hsr Hmax Hcsv HSc Hend.
    unfold ExtinctionStrainRate.notebook, ExtinctionStrainRate.cell_import,
      ExtinctionStrainRate.cell_user_variables, ExtinctionStrainRate.cell_run,
      ExtinctionStrainRate.solveOpposedFlame, solveOpposedFlame_of,
      plotting_preferences, solver_calls, report_calls, preference_calls,
      bindM, perform, read, lift, ret in *.
    cbn [fst snd app] in *.
    run_block Hgas.
    run_block Hsolve.
    rewrite Hsr; cbn; rewrite Hmax; cbn; rewrite Hcsv; cbn.
    rewrite HSc; cbn.
    run_block Hend.
    reflexivity.
  - intros w w_gas w_solved w_csv w_report massFlux sr p K Tpeak Sc
           Hgas -> Hsolve Hsr Hmax Hcsv HSc Hrep.
    unfold TwinPremixedESR.notebook, TwinPremixedESR.cell_import,
      TwinPremixedESR.cell_reactants, TwinPremixedESR.cell_flame,
      TwinPremixedESR.cell_run, TwinPremixedESR.cell_report,
      TwinPremixedESR.solveOpposedFlame, solveOpposedFlame_of,
      solver_calls, report_calls.
    unfold bindM at 1 2 3 4 5.
    unfold bindM, perform, read, lift, ret in *.
    cbn [fst snd app] in *.
    run_block Hgas.
    run_block Hsolve.
    rewrite Hsr; cbn; rewrite Hmax; cbn; rewrite Hcsv; cbn.
    rewrite HSc; cbn.
    run_block Hrep.
    reflexivity.
Qed.

Lemma notebooks_run_in_order_witness :
  ExtinctionStrainRate.notebook (stub (Ok tt) profile6) (unsolved, [])
  = (Ok tt,
     (profile6,
      [print_version; ct_Solution "gri30.cti";
       gas_set_TPX 300 101325 "CH4:0.75, O2:2, N2: 7.52";
       ct_CounterflowTwinPremixedFlame (7 # 1000)]
      ++ solver_calls (1 * 200 * (1 # 100)) 0 default_ratio default_slope
           default_curve default_prune
      ++ [write_csv "premixed_twin_flame.csv" false]
      ++ report_calls 2000 2 (35840 # 6963200) ++ preference_calls)).
Proof.
  apply (proj1 (proj2 (proj2 (notebooks_run_in_order (stub (Ok tt) profile6))))
           unsolved unsolved profile6 profile6 profile6
           (1 * 200 * (1 # 100)) [-1; -2; -1; 8; 0; 0] 1%nat 2 2000
           (35840 # 6963200));
    reflexivity.
Defined.

(** * Further properties of the notebook functions *)

(** ** [derivative] at the edges of its domain *)

(** The entries [derivative] returns on [float64] arrays of one length,
    and the spacings it divided by. *)
Lemma derivative_nth (x y d : list Q) (i : nat) :
  derivative_float64 x y = Ok d -> length x = length y -> (S i < length y)%nat ->
  ~ nth (S i) x 0 - nth i x 0 == 0 /\
  nth i d 0 = (nth (S i) y 0 - nth i y 0) / (nth (S i) x 0 - nth i x 0).
Proof.
  intros H E Hi.
  apply derivative_Ok_inv in H as (Ly & Lx & q & Hq & Lq & _ & ->).
  rewrite app_nth1 by lia.
  assert (Hqi : py.div (nth i (np.diff y) 0) (nth i (np.diff x) 0)
                = Ok (nth i q 0)).
  { unfold np.divide in Hq.
    rewrite broadcast_same in Hq by (rewrite !diff_length; lia).
    cbn [bind] in Hq.
    apply (mapM_nth _ _ _ (0, 0) 0 i) in Hq;
      [|rewrite length_combine, !diff_length; lia].
    rewrite combine_nth in Hq by (rewrite !diff_length; lia).
    exact Hq. }
  apply div_Ok_inv in Hqi as (Hnz & ->).
  rewrite !diff_nth in * by lia; auto.
Qed.

(** X1.  With fewer than two points in [y], [derivative] never returns,
    whatever the element types: it raises [IndexError] when [x] has at most
    two points and [ValueError] (shapes that do not broadcast) when [x] has
    more. *)
Theorem derivative_too_short (x y : ndarray) :
  (nd.len y < 2)%nat ->
  derivative x y
  = if (nd.len x <=? 2)%nat then Raise IndexError else Raise ValueError.
Proof.
  intros H.
  destruct y as [[|a [|a' y]]|[|a [|a' y]]]; try (simpl in H; lia);
    destruct x as [[|b [|c [|e x]]]|[|b [|c [|e x]]]]; reflexivity.
Qed.

Lemma derivative_too_short_witness :
  derivative (Float64 [0; 1]) (Float64 [5])
  = if Nat.leb (nd.len (Float64 [0; 1])) 2
    then Raise IndexError else Raise ValueError.
Proof.
  apply (derivative_too_short (Float64 [0; 1]) (Float64 [5])); simpl; lia.
Defined.






(** X3.  Shapes that do not fit raise [ValueError]: when [y] has at least
    two points, [x] has another length, that length is not two, and no two
    consecutive points of [x] are equal. *)
Theorem derivative_shapes_mismatch (x y : ndarray) :
  (2 <= nd.len y)%nat -> nd.len x <> nd.len y -> nd.len x <> 2%nat ->
  nd.wf x = true ->
  (forall i, (S i < nd.len x)%nat ->
     ~ nth (S i) (values x) 0 == nth i (values x) 0) ->
  derivative x y = Raise ValueError.
Proof.
  intros Ly Hne H2 W Hx.
  unfold derivative, nd.true_divide.
  pose proof (values_diff_length y) as Dy.
  pose proof (values_diff_length x) as Dx.
  destruct (Nat.eq_dec (nd.len y) 2) as [E2|E2].
  - (* one difference in [y]: it is broadcast over [np.diff x], and the
       slice assignment fails *)
    destruct (values (nd.diff y)) as [|c [|c' dy]] eqn:Edy;
      try (simpl in Dy; lia).
    assert (Hq : exists q, np.divide [c] (values (nd.diff x)) = Ok q /\
                           length q = length (values (nd.diff x))).
    { unfold np.divide, np.broadcast.
      destruct (Nat.eqb_spec (length [c]) (length (values (nd.diff x))))
        as [E|_]; [simpl in E; lia|].
      cbn [bind].
      destruct (mapM_total (fun xy => py.div (fst xy) (snd xy))
                  (map (fun v => (c, v)) (values (nd.diff x)))) as (q & Hq).
      { intros [a b] Hab; apply in_map_iff in Hab as (v & Hv & Hin).
        injection Hv as <- <-.
        apply in_values_diff in Hin as (i & Hi & ->).
        eexists; apply div_nonzero; cbn [fst snd].
        apply difference_nonzero; [exact W | exact Hi | apply Hx; exact Hi]. }
      exists q; split; [exact Hq|].
      apply mapM_length in Hq; rewrite Hq, length_map; reflexivity. }
    destruct Hq as (q & -> & Lq); cbn [bind].
    rewrite Dx in Lq.
    destruct y as [l|l]; cbn [nd.len] in E2;
      cbn [nd.zeros nd.dtype_of nd.len nd.set_init values].
    + unfold np.set_init; rewrite repeat_length, E2.
      destruct (Nat.eqb_spec (length q) (2 - 1)) as [E|_];
        [simpl in E; lia|].
      destruct q as [|v [|v' q]]; try reflexivity.
      simpl in Lq; lia.
    + rewrite repeat_length, E2.
      destruct (Nat.eqb_spec (length q) (2 - 1)) as [E|_];
        [simpl in E; lia|].
      destruct (Nat.eqb_spec (length q) 1) as [E|_]; [lia | reflexivity].
  - (* the two difference arrays do not broadcast *)
    unfold np.divide, np.broadcast.
    destruct (Nat.eqb_spec (length (values (nd.diff y)))
                (length (values (nd.diff x)))) as [E|_]; [lia|].
    destruct (values (nd.diff y)) as [|a [|a' dy]]; try (simpl in Dy; lia).
    destruct (values (nd.diff x)) as [|b [|b' dx]]; try reflexivity.
    simpl in Dx; lia.
Qed.

Lemma derivative_shapes_mismatch_witness :
  derivative (Float64 [0; 1; 2]) (Float64 [0; 1]) = Raise ValueError.
Proof.
  apply (derivative_shapes_mismatch (Float64 [0; 1; 2]) (Float64 [0; 1]));
    simpl; try lia; try reflexivity.
  intros i Hi.
  destruct i as [|[|i]]; simpl; try lia; unfold Qeq; simpl; lia.
Defined.

(** X4.  [derivative] does not guard against a repeated grid point: on
    arrays of one length [n >= 2] with [x[i+1] = x[i]] for some [i] it raises
    nothing, and the quotient it forms is not a finite number. *)
Theorem derivative_repeated_grid_point (x y : ndarray) (i : nat) :
  nd.len x = nd.len y -> (S i < nd.len x)%nat ->
  nth (S i) (values x) 0 == nth i (values x) 0 ->
  derivative x y = Beyond NonFinite.
Proof.
  intros E Hi Hz.
  unfold derivative, nd.true_divide, np.divide.
  rewrite broadcast_same by (rewrite !values_diff_length; lia).
  cbn [bind].
  rewrite (mapM_stops _ _ (nth i (values (nd.diff y)) 0,
                           nth i (values (nd.diff x)) 0)
             NonFinite); [reflexivity | | |].
  - intros [a b] _; cbn [fst snd]; unfold py.div.
    destruct (Qeq_bool b 0); [right; reflexivity | left; eexists; reflexivity].
  - rewrite <- combine_nth by (rewrite !values_diff_length; lia).
    apply nth_In; rewrite length_combine, !values_diff_length; lia.
  - cbn [fst snd]; apply div_zero.
    rewrite values_diff_nth by lia; apply difference_zero; exact Hz.
Qed.

Lemma derivative_repeated_grid_point_witness :
  derivative (Float64 [0; 1; 1]) (Float64 [0; 1; 4]) = Beyond NonFinite.
Proof.
  apply (derivative_repeated_grid_point
           (Float64 [0; 1; 1]) (Float64 [0; 1; 4]) 1);
    [reflexivity | simpl; lia | reflexivity].
Defined.

Lemma constant_slopes (c : Q) (x : list Q) :
  (2 <= length x)%nat ->
  (forall i, (S i < length x)%nat -> ~ nth (S i) x 0 == nth i x 0) ->
  exists dydx,
    derivative_float64 x (repeat c (length x)) = Ok dydx /\
    length dydx = length x /\
    forall i, (i < length x)%nat -> nth i dydx 0 == 0.
Proof.
  intros Lx Hx.
  assert (Lc : length (repeat c (length x)) = length x)
    by apply repeat_length.
  destruct (derivative_total x (repeat c (length x))) as (d & Hd);
    [congruence | lia | exact Hx |].
  exists d; split; [exact Hd|].
  destruct (derivative_length _ _ _ Hd) as (Ld & _).
  split; [congruence|].
  assert (Hfwd : forall i, (S i < length x)%nat -> nth i d 0 == 0).
  { intros i Hi.
    destruct (derivative_nth _ _ _ i Hd) as (Hnz & ->); [congruence | lia |].
    rewrite !nth_repeat_lt by lia.
    field; exact Hnz. }
  intros i Hi.
  destruct (Nat.eq_dec (S i) (length x)) as [E|E]; [|apply Hfwd; lia].
  pose proof (derivative_last_two _ _ _ Hd) as L2.
  rewrite Ld, Lc in L2.
  replace i with (length x - 1)%nat by lia.
  rewrite <- L2; apply Hfwd; lia.
Qed.

(** X5.  Constant data has derivative zero: when every item of a [float64]
    [y] is the same number, on a [float64] grid of the same length [n >= 2]
    with no two consecutive points equal, every entry of the result is
    zero. *)
Theorem derivative_constant (c : Q) (x : list Q) :
  (2 <= length x)%nat ->
  (forall i, (S i < length x)%nat -> ~ nth (S i) x 0 == nth i x 0) ->
  exists dydx,
    derivative (Float64 x) (Float64 (repeat c (length x)))
    = Ok (Float64 dydx) /\
    length dydx = length x /\
    forall i, (i < length x)%nat -> nth i dydx 0 == 0.
Proof.
  intros Lx Hx.
  destruct (constant_slopes c x Lx Hx) as (d & Hd & Ld & Hz).
  exists d; split; [apply derivative_float64_Ok; exact Hd|].
  split; [exact Ld | exact Hz].
Qed.

Lemma derivative_constant_witness :
  exists dydx,
    derivative (Float64 [0; 1; 3; 6]) (Float64 (repeat 7 4))
    = Ok (Float64 dydx) /\
    length dydx = 4%nat /\
    forall i, (i < 4)%nat -> nth i dydx 0 == 0.
Proof.
  apply (derivative_constant 7 [0; 1; 3; 6]); [simpl; lia|].
  intros i Hi; simpl in Hi.
  destruct i as [|[|[|i]]]; simpl; try lia; unfold Qeq; simpl; lia.
Defined.

(** ** The characteristic strain rate *)

(** X6.  In src/unnamed/part_000, when the strain rate at the inlet is not
    positive, [K] is the largest |strain rate| from the inlet up to the
    returned point, and it is reached there only: every earlier point has a
    strictly smaller |strain rate|, and the strain rate at the returned point
    is not positive. *)
Theorem scan_K_is_upstream_maximum (f : Flame) (sr : list Q) (p : nat)
        (K : Q) :
  ExtinctionStrainRate.computeStrainRates f = Ok (sr, p, K) ->
  nth 0 sr 0 <= 0 ->
  nth p sr 0 <= 0 /\
  K == - nth p sr 0 /\
  forall j, (j < p)%nat -> Qabs (nth j sr 0) < K.
Proof.
  intros H Hin.
  apply scan_computeStrainRates_inv in H as (_ & Hs & ->).
  apply scan_while_inv in Hs as (_ & _ & Hdec & _).
  assert (Hdec' : forall m, (m < p)%nat -> nth (S m) sr 0 < nth m sr 0)
    by (intros m Hm; apply Hdec; lia).
  pose proof (strictly_falling sr p Hdec') as Hfall.
  assert (Hle0 : forall j, (j <= p)%nat -> nth j sr 0 <= 0).
  { intros [|j] Hj; [exact Hin|].
    assert (nth (0 + S j) sr 0 < nth 0 sr 0) by (apply Hfall; lia).
    simpl in *; lra. }
  assert (Hp : nth p sr 0 <= 0) by (apply Hle0; lia).
  split; [exact Hp|]; split; [apply Qabs_neg; exact Hp|].
  intros j Hj.
  assert (nth j sr 0 <= 0) by (apply Hle0; lia).
  assert (nth p sr 0 < nth j sr 0).
  { replace p with (j + S (p - j - 1))%nat at 1 by lia; apply Hfall; lia. }
  rewrite (Qabs_neg (nth j sr 0)), (Qabs_neg (nth p sr 0)) by assumption.
  lra.
Qed.

Lemma scan_K_is_upstream_maximum_witness :
  nth 3 [-1; -2; -3; -4; 0; 0] 0 <= 0 /\
  4 == - nth 3 [-1; -2; -3; -4; 0; 0] 0 /\
  forall j, (j < 3)%nat -> Qabs (nth j [-1; -2; -3; -4; 0; 0] 0) < 4.
Proof.
  apply (scan_K_is_upstream_maximum cold_flow [-1; -2; -3; -4; 0; 0] 3 4);
    [reflexivity | unfold Qle; simpl; lia].
Defined.

(** X7.  In src/flames/twinPremixedESR.ipynb the returned point lies
    upstream of the velocity minimum [minVelocityPoint], which lies upstream
    of the point of the overall largest |strain rate|; the velocity at
    [minVelocityPoint] is the smallest before that point, and [K] does not
    exceed the overall largest |strain rate|. *)
Theorem selection_upstream_of_minimum (f : Flame) (sr : list Q) (p : nat)
        (K : Q) :
  TwinPremixedESR.computeStrainRates f = Ok (sr, p, K) ->
  exists maxStrLocation minVelocityPoint,
    (p < minVelocityPoint < maxStrLocation)%nat /\
    (maxStrLocation < length sr)%nat /\
    (forall j, (j < maxStrLocation)%nat ->
       nth minVelocityPoint (u f) 0 <= nth j (u f) 0) /\
    (forall j, (j < length sr)%nat ->
       Qabs (nth j sr 0) <= Qabs (nth maxStrLocation sr 0)) /\
    K <= Qabs (nth maxStrLocation sr 0).
Proof.
  intros H.
  apply selection_inv in H as (Hd & -> & msl & mvp & Hmsl & Hmvp & Hp
                               & Lp & Lmsl).
  destruct (derivative_length _ _ _ Hd) as (Ld & _).
  exists msl, mvp; split; [exact Lp|]; split; [exact Lmsl|].
  pose proof (argmax_spec _ _ Hmsl) as (_ & Hmax & _).
  pose proof (argmin_spec _ _ Hmvp) as (_ & Hmin & _).
  assert (Habs : forall j, (j < length sr)%nat ->
                           Qabs (nth j sr 0) <= Qabs (nth msl sr 0)).
  { intros j Hj; specialize (Hmax j).
    unfold np.absolute in Hmax at 1; rewrite length_map in Hmax.
    rewrite !absolute_nth in Hmax; apply Hmax; exact Hj. }
  split; [|split; [exact Habs | apply Habs; lia]].
  intros j Hj; specialize (Hmin j).
  rewrite upto_length in Hmin by lia.
  rewrite !upto_nth in Hmin by lia.
  apply Hmin; exact Hj.
Qed.

Lemma selection_upstream_of_minimum_witness :
  exists maxStrLocation minVelocityPoint,
    (1 < minVelocityPoint < maxStrLocation)%nat /\
    (maxStrLocation < length [-1; -2; -1; 8; 0; 0]%Q)%nat /\
    (forall j, (j < maxStrLocation)%nat ->
       nth minVelocityPoint (u profile6) 0 <= nth j (u profile6) 0) /\
    (forall j, (j < length [-1; -2; -1; 8; 0; 0]%Q)%nat ->
       Qabs (nth j [-1; -2; -1; 8; 0; 0] 0)
       <= Qabs (nth maxStrLocation [-1; -2; -1; 8; 0; 0] 0)) /\
    2 <= Qabs (nth maxStrLocation [-1; -2; -1; 8; 0; 0] 0).
Proof.
  apply (selection_upstream_of_minimum profile6 [-1; -2; -1; 8; 0; 0] 1 2).
  reflexivity.
Defined.

(** X8.  The index either [computeStrainRates] returns is a valid index
    into the velocity array, and into the grid when the grid has the length
    of the velocity array, so [oppFlame.u[strainRatePoint]] and
    [oppFlame.grid[strainRatePoint]] of the plotting cell do not raise on
    the arrays the index was computed from. *)
Theorem strainRatePoint_indexes_profile (f : Flame) (sr : list Q) (p : nat)
        (K : Q) :
  ExtinctionStrainRate.computeStrainRates f = Ok (sr, p, K) \/
  TwinPremixedESR.computeStrainRates f = Ok (sr, p, K) ->
  py.getitem (u f) (Z.of_nat p) = Ok (nth p (u f) 0) /\
  (length (grid f) = length (u f) ->
   py.getitem (grid f) (Z.of_nat p) = Ok (nth p (grid f) 0)).
Proof.
  intros H.
  assert (Hd : derivative_float64 (grid f) (u f) = Ok sr /\ (p < length sr)%nat).
  { destruct H as [H|H].
    - apply scan_computeStrainRates_inv in H as (Hd & Hs & _).
      apply scan_while_inv in Hs as (_ & Lp & _); split; [exact Hd | lia].
    - apply selection_inv in H as (Hd & _ & msl & mvp & _ & _ & _ & Lp & Lm).
      split; [exact Hd | lia]. }
  destruct Hd as (Hd & Lp).
  destruct (derivative_length _ _ _ Hd) as (Ld & _).
  split; [apply getitem_nat; lia|].
  intros E; apply getitem_nat; lia.
Qed.

Lemma strainRatePoint_indexes_profile_witness :
  py.getitem (u cold_flow) (Z.of_nat 3) = Ok (nth 3 (u cold_flow) 0) /\
  (length (grid cold_flow) = length (u cold_flow) ->
   py.getitem (grid cold_flow) (Z.of_nat 3) = Ok (nth 3 (grid cold_flow) 0)).
Proof.
  apply (strainRatePoint_indexes_profile cold_flow
           [-1; -2; -3; -4; 0; 0] 3 4).
  left; reflexivity.
Defined.

(** A grid shorter than the velocity array (the broadcast case) can leave
    the index outside the grid. *)
Example strainRatePoint_outside_short_grid :
  ExtinctionStrainRate.computeStrainRates
    (mkFlame [0; 1] [10; 9; 7; 4; 0; 0] [] [] [] [])
  = Ok ([-1; -2; -3; -4; 0; 0], 3%nat, 4) /\
  py.getitem [0; 1] (Z.of_nat 3) = Raise IndexError.
Proof. split; reflexivity. Qed.

(** X9.  A flow with one velocity everywhere has strain rate zero
    everywhere.  On it the version of src/unnamed/part_000 returns the inlet,
    index 0, with [K = 0], and the version of
    src/flames/twinPremixedESR.ipynb raises [ValueError]: its largest
    |strain rate| is found at index 0 and the slice before it is empty. *)
Theorem uniform_velocity (f : Flame) (c : Q) :
  u f = repeat c (length (grid f)) ->
  (2 <= length (grid f))%nat ->
  (forall i, (S i < length (grid f))%nat ->
             ~ nth (S i) (grid f) 0 == nth i (grid f) 0) ->
  (exists sr K,
     ExtinctionStrainRate.computeStrainRates f = Ok (sr, 0%nat, K) /\
     K == 0) /\
  TwinPremixedESR.computeStrainRates f = Raise ValueError.
Proof.
  intros Hu Lg Hg.
  destruct (constant_slopes c (grid f) Lg Hg) as (sr & Hd & Lsr & Hsr).
  rewrite <- Hu in Hd.
  split.
  - exists sr, (Qabs (nth 0 sr 0)); split.
    + rewrite scan_computeStrainRates_eq.
      rewrite Hd; cbn [bind ExtinctionStrainRate.scan_while].
      rewrite getitem_succ, !getitem_nat by lia; cbn [bind].
      rewrite (proj2 (gt_false (nth 0 sr 0) (nth 1 sr 0)))
        by (rewrite (Hsr 0%nat), (Hsr 1%nat) by lia; lra).
      cbn [bind]; rewrite getitem_nat by lia; reflexivity.
    + rewrite (Hsr 0%nat) by lia; reflexivity.
  - destruct (selection_cases f sr Hd) as (msl & Hmsl & Lmsl & Z0 & _).
    apply Z0.
    destruct msl as [|k]; [reflexivity | exfalso].
    pose proof (argmax_spec _ _ Hmsl) as (_ & _ & Hfirst).
    specialize (Hfirst 0%nat); rewrite !absolute_nth in Hfirst.
    rewrite (Hsr 0%nat), (Hsr (S k)) in Hfirst by lia.
    assert (Qabs 0 < Qabs 0) by (apply Hfirst; lia).
    lra.
Qed.

Lemma uniform_velocity_witness :
  (exists sr K,
     ExtinctionStrainRate.computeStrainRates
       (mkFlame [0; 1; 3; 6] (repeat 5 4) [] [] [] [])
     = Ok (sr, 0%nat, K) /\
     K == 0) /\
  TwinPremixedESR.computeStrainRates
    (mkFlame [0; 1; 3; 6] (repeat 5 4) [] [] [] [])
  = Raise ValueError.
Proof.
  apply (uniform_velocity
           (mkFlame [0; 1; 3; 6] (repeat 5 4) [] [] [] []) 5);
    [reflexivity | simpl; lia |].
  intros i Hi; simpl in Hi.
  destruct i as [|[|[|i]]]; simpl; try lia; unfold Qeq; simpl; lia.
Defined.

(** ** More on [computeConsumptionSpeed] *)

Lemma broadcast_mismatch (a b : list Q) :
  length a <> length b -> length a <> 1%nat -> length b <> 1%nat ->
  np.broadcast a b = Raise ValueError.
Proof.
  intros H Ha Hb; unfold np.broadcast.
  destruct (Nat.eqb_spec (length a) (length b)); [contradiction|].
  destruct a as [|x [|x' a]]; destruct b as [|y [|y' b]]; simpl in *;
    try reflexivity; congruence.
Qed.

(** The steps of [computeConsumptionSpeed] on arrays that fit, with no zero
    in [cp]. *)
Lemma consumption_speed_steps (f : Flame) :
  (1 <= length (T f))%nat -> (1 <= length (density f))%nat ->
  length (heat_release_rate f) = length (cp f) ->
  length (grid f) = length (cp f) ->
  all_nonzero (cp f) = true ->
  exists Tb Tu rho_u integrand I,
    is_max (T f) Tb /\ is_min (T f) Tu /\ is_max (density f) rho_u /\
    length integrand = length (cp f) /\
    (forall i, (i < length (cp f))%nat ->
       nth i integrand 0 = nth i (heat_release_rate f) 0 / nth i (cp f) 0) /\
    I == trapezoidal_rule (grid f) integrand /\
    computeConsumptionSpeed f
    = (v <- py.div I (Tb - Tu) ;; py.div v rho_u).
Proof.
  intros LT Ld Lh Lg Hcp.
  unfold computeConsumptionSpeed.
  destruct (py_max_spec (T f) LT) as (Tb & -> & HTb).
  destruct (py_min_spec (T f) LT) as (Tu & -> & HTu).
  destruct (py_max_spec (density f) Ld) as (rho & -> & Hrho).
  cbn [bind].
  destruct (divide_same_nonzero (heat_release_rate f) (cp f) Lh Hcp)
    as (q & -> & Lq & Hq).
  cbn [bind].
  destruct (trapz_trapezoidal_rule q (grid f)) as (I & -> & HI);
    [congruence|].
  cbn [bind].
  exists Tb, Tu, rho, q, I; repeat split; auto; try congruence;
    try apply HTb; try apply HTu; try apply Hrho.
  intros i Hi; apply Hq; lia.
Qed.

Lemma sum_below_nonneg (k : nat) (g : nat -> Q) :
  (forall i, (i < k)%nat -> 0 <= g i) -> 0 <= sum_below k g.
Proof.
  induction k as [|k IH]; simpl; intros H; [lra|].
  assert (0 <= sum_below k g) by (apply IH; intros; apply H; lia).
  assert (0 <= g k) by (apply H; lia).
  lra.
Qed.

Lemma sum_below_zero (k : nat) (g : nat -> Q) :
  (forall i, (i < k)%nat -> g i == 0) -> sum_below k g == 0.
Proof.
  induction k as [|k IH]; simpl; intros H; [reflexivity|].
  rewrite IH, (H k) by (intros; try apply H; lia); reflexivity.
Qed.

Lemma Qdiv_nonneg (a b : Q) : 0 <= a -> 0 < b -> 0 <= a / b.
Proof.
  intros Ha Hb; unfold Qdiv.
  apply Qmult_le_0_compat; [exact Ha | apply Qinv_le_0_compat; lra].
Qed.

Lemma is_max_positive (l : list Q) (m : Q) :
  is_max l m -> (forall r, In r l -> 0 < r) -> 0 < m.
Proof.
  intros ((t & Ht & E) & _) H; specialize (H t Ht); lra.
Qed.

(** X12.  The consumption speed of a physical profile is not negative: with
    arrays of one length [n >= 2], a grid that does not decrease, heat
    release rates that are not negative, positive [cp] and densities, and a
    temperature that is not uniform, [computeConsumptionSpeed] returns a
    value [Sc >= 0]. *)
Theorem consumption_speed_nonnegative (f : Flame) (n : nat) :
  length (T f) = n -> length (density f) = n ->
  length (heat_release_rate f) = n -> length (cp f) = n ->
  length (grid f) = n -> (2 <= n)%nat ->
  (forall i, (S i < n)%nat -> nth i (grid f) 0 <= nth (S i) (grid f) 0) ->
  (forall i, (i < n)%nat -> 0 <= nth i (heat_release_rate f) 0) ->
  (forall i, (i < n)%nat -> 0 < nth i (cp f) 0) ->
  (forall r, In r (density f) -> 0 < r) ->
  (exists a b, In a (T f) /\ In b (T f) /\ a < b) ->
  exists Sc, computeConsumptionSpeed f = Ok Sc /\ 0 <= Sc.
Proof.
  intros LT Ld Lh Lc Lg Hn Hgrid Hhrr Hcp Hrho (a & b & Ia & Ib & Hab).
  assert (Hnz : all_nonzero (cp f) = true).
  { unfold all_nonzero; apply forallb_forall; intros c Hc.
    apply (In_nth _ _ 0) in Hc as (i & Hi & <-).
    apply nonzero_true; intros Z.
    assert (0 < nth i (cp f) 0) by (apply Hcp; lia); lra. }
  destruct (consumption_speed_steps f) as
      (Tb & Tu & rho & q & I & HTb & HTu & Hmrho & Lq & Hq & HI & ->);
    try lia; try congruence.
  assert (HT : 0 < Tb - Tu).
  { destruct HTb as (_ & HTb); destruct HTu as (_ & HTu).
    specialize (HTb b Ib); specialize (HTu a Ia); lra. }
  assert (Hr : 0 < rho) by (apply (is_max_positive _ _ Hmrho Hrho)).
  assert (HI0 : 0 <= I).
  { rewrite HI; unfold trapezoidal_rule; apply sum_below_nonneg.
    intros i Hi; rewrite Lg in Hi.
    assert (0 <= nth i q 0)
      by (rewrite Hq by lia; apply Qdiv_nonneg; [apply Hhrr | apply Hcp]; lia).
    assert (0 <= nth (S i) q 0)
      by (rewrite Hq by lia; apply Qdiv_nonneg; [apply Hhrr | apply Hcp]; lia).
    assert (nth i (grid f) 0 <= nth (S i) (grid f) 0) by (apply Hgrid; lia).
    apply Qdiv_nonneg; [|lra].
    apply Qmult_le_0_compat; lra. }
  rewrite div_nonzero by lra; cbn [bind].
  rewrite div_nonzero by lra.
  eexists; split; [reflexivity|].
  apply Qdiv_nonneg; [apply Qdiv_nonneg|]; assumption.
Qed.

Lemma consumption_speed_nonnegative_witness :
  exists Sc, computeConsumptionSpeed profile6 = Ok Sc /\ 0 <= Sc.
Proof.
  apply (consumption_speed_nonnegative profile6 6); try reflexivity; try lia.
  - intros i Hi; destruct i as [|[|[|[|[|i]]]]]; simpl; try lia;
      unfold Qle; simpl; lia.
  - intros i Hi; destruct i as [|[|[|[|[|[|i]]]]]]; simpl; try lia;
      unfold Qle; simpl; lia.
  - intros i Hi; destruct i as [|[|[|[|[|[|i]]]]]]; simpl; try lia;
      unfold Qlt; simpl; lia.
  - simpl; intros r Hr; repeat destruct Hr as [<-|Hr]; try contradiction;
      unfold Qlt; simpl; lia.
  - exists 300, 400; simpl; repeat split; auto; unfold Qlt; simpl; lia.
Defined.

(** X13.  Without heat release there is no consumption: when every heat
    release rate is zero (arrays of one length [n >= 2], no zero in [cp],
    positive densities, a temperature that is not uniform),
    [computeConsumptionSpeed] returns zero. *)
Theorem consumption_speed_without_heat_release (f : Flame) (n : nat) :
  length (T f) = n -> length (density f) = n ->
  length (heat_release_rate f) = n -> length (cp f) = n ->
  length (grid f) = n -> (2 <= n)%nat ->
  (forall i, (i < n)%nat -> nth i (heat_release_rate f) 0 == 0) ->
  all_nonzero (cp f) = true ->
  (forall r, In r (density f) -> 0 < r) ->
  (exists a b, In a (T f) /\ In b (T f) /\ a < b) ->
  exists Sc, computeConsumptionSpeed f = Ok Sc /\ Sc == 0.
Proof.
  intros LT Ld Lh Lc Lg Hn Hhrr Hnz Hrho (a & b & Ia & Ib & Hab).
  destruct (consumption_speed_steps f) as
      (Tb & Tu & rho & q & I & HTb & HTu & Hmrho & Lq & Hq & HI & ->);
    try lia; try congruence.
  assert (HT : 0 < Tb - Tu).
  { destruct HTb as (_ & HTb); destruct HTu as (_ & HTu).
    specialize (HTb b Ib); specialize (HTu a Ia); lra. }
  assert (Hr : 0 < rho) by (apply (is_max_positive _ _ Hmrho Hrho)).
  assert (Hq0 : forall i, (i < n)%nat -> nth i q 0 == 0).
  { intros i Hi; rewrite Hq by lia.
    rewrite (Hhrr i Hi); unfold Qdiv; lra. }
  assert (HI0 : I == 0).
  { rewrite HI; unfold trapezoidal_rule; apply sum_below_zero.
    intros i Hi; rewrite Lg in Hi.
    rewrite (Hq0 i), (Hq0 (S i)) by lia.
    unfold Qdiv; lra. }
  rewrite div_nonzero by lra; cbn [bind].
  rewrite div_nonzero by lra.
  eexists; split; [reflexivity|].
  rewrite HI0; unfold Qdiv; lra.
Qed.

Lemma consumption_speed_without_heat_release_witness :
  exists Sc,
    computeConsumptionSpeed (with_T cold_flow [300; 300; 300; 300; 300; 301])
    = Ok Sc /\ Sc == 0.
Proof.
  apply (consumption_speed_without_heat_release
           (with_T cold_flow [300; 300; 300; 300; 300; 301]) 6);
    try reflexivity; try lia.
  - intros i Hi; destruct i as [|[|[|[|[|[|i]]]]]]; simpl; try lia;
      reflexivity.
  - simpl; intros r Hr; repeat destruct Hr as [<-|Hr]; try contradiction;
      unfold Qlt; simpl; lia.
  - exists 300, 301; simpl; split; [tauto|]; split; [tauto|].
    unfold Qlt; simpl; lia.
Defined.

(** X14.  A uniform temperature makes [computeConsumptionSpeed] divide by
    [Tb - Tu = 0]: on arrays that fit, with no zero in [cp], it raises
    nothing and its result is not a finite number. *)
Theorem consumption_speed_isothermal (f : Flame) :
  (1 <= length (T f))%nat -> (1 <= length (density f))%nat ->
  length (heat_release_rate f) = length (cp f) ->
  length (grid f) = length (cp f) ->
  all_nonzero (cp f) = true ->
  (forall a b, In a (T f) -> In b (T f) -> a == b) ->
  computeConsumptionSpeed f = Beyond NonFinite.
Proof.
  intros LT Ld Lh Lg Hnz Huni.
  destruct (consumption_speed_steps f LT Ld Lh Lg Hnz) as
      (Tb & Tu & rho & q & I & HTb & HTu & _ & _ & _ & _ & ->).
  destruct HTb as ((tb & Itb & Etb) & _).
  destruct HTu as ((tu & Itu & Etu) & _).
  pose proof (Huni tb tu Itb Itu) as E.
  rewrite div_zero by lra; reflexivity.
Qed.

Lemma consumption_speed_isothermal_witness :
  computeConsumptionSpeed cold_flow = Beyond NonFinite.
Proof.
  apply (consumption_speed_isothermal cold_flow);
    try reflexivity; try (simpl; lia).
  simpl; intros a b Ha Hb.
  repeat destruct Ha as [<-|Ha]; try contradiction;
    repeat destruct Hb as [<-|Hb]; try contradiction; reflexivity.
Defined.

(** X15.  [computeConsumptionSpeed] raises [ValueError] on arrays that do
    not fit: when [heat_release_rate] and [cp] have different lengths,
    neither of them one; and, with those two of one length and no zero in
    [cp], when the grid has neither their length nor two points and they
    do not have two points either. *)
Theorem consumption_speed_shapes_mismatch (f : Flame) :
  (1 <= length (T f))%nat -> (1 <= length (density f))%nat ->
  (length (heat_release_rate f) <> length (cp f) ->
   length (heat_release_rate f) <> 1%nat -> length (cp f) <> 1%nat ->
   computeConsumptionSpeed f = Raise ValueError) /\
  (length (heat_release_rate f) = length (cp f) ->
   all_nonzero (cp f) = true ->
   (length (grid f) - 1 <> length (cp f) - 1)%nat ->
   length (grid f) <> 2%nat -> length (cp f) <> 2%nat ->
   computeConsumptionSpeed f = Raise ValueError).
Proof.
  intros LT Ld.
  unfold computeConsumptionSpeed.
  destruct (py_max_spec (T f) LT) as (Tb & -> & _).
  destruct (py_min_spec (T f) LT) as (Tu & -> & _).
  destruct (py_max_spec (density f) Ld) as (rho & -> & _).
  cbn [bind]; split.
  - intros Hne H1 H2; unfold np.divide.
    rewrite broadcast_mismatch by assumption; reflexivity.
  - intros Lh Hnz Hg Hg2 Hc2.
    destruct (divide_same_nonzero _ _ Lh Hnz) as (q & -> & Lq & _).
    cbn [bind]; unfold np.trapz, np.add, np.multiply.
    rewrite broadcast_same
      by (rewrite length_skipn, removelast_length; reflexivity).
    cbn [bind].
    rewrite broadcast_mismatch; [reflexivity | | |];
      rewrite ?diff_length, ?length_map, ?length_combine, ?length_skipn,
        ?removelast_length; lia.
Qed.

Lemma consumption_speed_shapes_mismatch_witness :
  computeConsumptionSpeed
    (mkFlame [0; 1; 2] [] [300; 400] [1] [0; 1; 2] [1; 1]) = Raise ValueError
  /\
  computeConsumptionSpeed
    (mkFlame [0; 1; 2; 3] [] [300; 400] [1] [0; 1; 2] [1; 1; 1])
  = Raise ValueError.
Proof.
  split.
  - apply (proj1 (consumption_speed_shapes_mismatch
                    (mkFlame [0; 1; 2] [] [300; 400] [1] [0; 1; 2] [1; 1])
                    ltac:(simpl; lia) ltac:(simpl; lia))); simpl; lia.
  - apply (proj2 (consumption_speed_shapes_mismatch
                    (mkFlame [0; 1; 2; 3] [] [300; 400] [1] [0; 1; 2]
                       [1; 1; 1])
                    ltac:(simpl; lia) ltac:(simpl; lia)));
      try reflexivity; simpl; lia.
Defined.

(** ** Notebook runs that stop early *)

(** X17.  The solved profile is written to the CSV file only after
    [computeStrainRates] has returned: in either notebook, when the
    configuration and solver calls return and [computeStrainRates] raises on
    the arrays left by [solve], the run stops with that exception right after
    the [solve] call, with no [write_csv], nothing printed and no matplotlib
    call. *)
Theorem no_csv_when_computeStrainRates_raises {W : Type} (ext : Externals W)
        (w w_gas w_solved : W) (massFlux : Q) (e : exn) :
  (run_calls ext
     [print_version; ct_Solution "gri30.cti";
      gas_set_equivalence_ratio (75 # 100) "CH4"
        [("O2"%string, 1); ("N2"%string, 376 # 100)];
      gas_set_TP 300 101325] w
   = (Ok tt, w_gas) ->
   massFlux = gas_density ext w_gas * 2 ->
   run_calls ext
     (ct_CounterflowTwinPremixedFlame (25 # 1000)
      :: solver_calls massFlux 1 default_ratio default_slope default_curve
           default_prune) w_gas
   = (Ok tt, w_solved) ->
   TwinPremixedESR.computeStrainRates (oppFlame ext w_solved) = Raise e ->
   TwinPremixedESR.notebook ext (w, [])
   = (Raise e,
      (w_solved,
       [print_version; ct_Solution "gri30.cti";
        gas_set_equivalence_ratio (75 # 100) "CH4"
          [("O2"%string, 1); ("N2"%string, 376 # 100)];
        gas_set_TP 300 101325;
        ct_CounterflowTwinPremixedFlame (25 # 1000)]
       ++ solver_calls massFlux 1 default_ratio default_slope default_curve
            default_prune)))
  /\
  (run_calls ext
     [print_version; ct_Solution "gri30.cti";
      gas_set_TPX 300 101325 "CH4:0.75, O2:2, N2: 7.52"] w
   = (Ok tt, w_gas) ->
   massFlux = gas_density ext w_gas * 200 * (1 # 100) ->
   run_calls ext
     (ct_CounterflowTwinPremixedFlame (7 # 1000)
      :: solver_calls massFlux 0 default_ratio default_slope default_curve
           default_prune) w_gas
   = (Ok tt, w_solved) ->
   ExtinctionStrainRate.computeStrainRates (oppFlame ext w_solved) = Raise e ->
   ExtinctionStrainRate.notebook ext (w, [])
   = (Raise e,
      (w_solved,
       [print_version; ct_Solution "gri30.cti";
        gas_set_TPX 300 101325 "CH4:0.75, O2:2, N2: 7.52";
        ct_CounterflowTwinPremixedFlame (7 # 1000)]
       ++ solver_calls massFlux 0 default_ratio default_slope default_curve
            default_prune))).
Proof.
  split.
  - intros Hgas -> Hsolve Hsr.
    unfold TwinPremixedESR.notebook, TwinPremixedESR.cell_import,
      TwinPremixedESR.cell_reactants, TwinPremixedESR.cell_flame,
      TwinPremixedESR.cell_run, TwinPremixedESR.cell_report,
      TwinPremixedESR.solveOpposedFlame, solveOpposedFlame_of,
      solver_calls, bindM, perform, read, lift, ret in *.
    cbn [fst snd app] in *.
    run_block Hgas.
    run_block Hsolve.
    rewrite Hsr; reflexivity.
  - intros Hgas -> Hsolve Hsr.
    unfold ExtinctionStrainRate.notebook, ExtinctionStrainRate.cell_import,
      ExtinctionStrainRate.cell_user_variables, ExtinctionStrainRate.cell_run,
      ExtinctionStrainRate.solveOpposedFlame, solveOpposedFlame_of,
      solver_calls, bindM, perform, read, lift, ret in *.
    cbn [fst snd app] in *.
    run_block Hgas.
    run_block Hsolve.
    rewrite Hsr; reflexivity.
Qed.

Lemma no_csv_when_computeStrainRates_raises_witness :
  TwinPremixedESR.notebook (stub (Ok tt) steep_inlet) (unsolved, [])
  = (Raise ValueError,
     (steep_inlet,
      [print_version; ct_Solution "gri30.cti";
       gas_set_equivalence_ratio (75 # 100) "CH4"
         [("O2"%string, 1); ("N2"%string, 376 # 100)];
       gas_set_TP 300 101325;
       ct_CounterflowTwinPremixedFlame (25 # 1000)]
      ++ solver_calls (1 * 2) 1 default_ratio default_slope default_curve
           default_prune)).
Proof.
  apply (proj1 (no_csv_when_computeStrainRates_raises
                  (stub (Ok tt) steep_inlet) unsolved unsolved steep_inlet
                  (1 * 2) ValueError));
    reflexivity.
Defined.

(** X18.  The species cell reads rows 13, 15 and 5 of the mole fractions
    before it opens its figure: a mechanism with fewer than 16 species makes
    it raise [IndexError] with no matplotlib call made. *)
Theorem species_plot_needs_16_species {W : Type} (ext : Externals W)
        (w : W) (lg : list Event) :
  (length (oppFlame_X ext w) < 16)%nat ->
  TwinPremixedESR.cell_species_plot ext (w, lg) = (Raise IndexError, (w, lg)).
Proof.
  intros H.
  unfold TwinPremixedESR.cell_species_plot, bindM, read, lift, row.
  cbn [fst snd].
  assert (H15 : nth_error (oppFlame_X ext w) 15 = None)
    by (apply nth_error_None; lia).
  destruct (nth_error (oppFlame_X ext w) 13); [|reflexivity].
  rewrite H15; reflexivity.
Qed.

Lemma species_plot_needs_16_species_witness :
  TwinPremixedESR.cell_species_plot
    {| call := fun _ w => (Ok tt, w);
       oppFlame := fun w => w;
       gas_density := fun _ => 1;
       oppFlame_X := fun _ => repeat [] 14 |}
    (profile6, [])
  = (Raise IndexError, (profile6, [])).
Proof.
  apply (species_plot_needs_16_species
           {| call := fun _ w => (Ok tt, w);
              oppFlame := fun w => w;
              gas_density := fun _ => 1;
              oppFlame_X := fun _ => repeat [] 14 |}
           profile6 []).
  simpl; lia.
Defined.

(** ** The characteristic strain rate in terms of the profile *)

(** The index of the overall largest |strain rate| is never the last one:
    the endpoint repeats the entry before it, and [argmax] takes the first. *)
Lemma maxStrLocation_not_last (x y sr : list Q) (msl : nat) :
  derivative_float64 x y = Ok sr -> np.argmax (np.absolute sr) = Ok msl ->
  (S msl < length sr)%nat.
Proof.
  intros Hd Hmsl.
  pose proof (derivative_last_two _ _ _ Hd) as L2.
  destruct (derivative_length _ _ _ Hd) as (_ & Ly).
  destruct (derivative_length _ _ _ Hd) as (Ld & _).
  pose proof (argmax_spec _ _ Hmsl) as (Lm & _ & Hfirst).
  unfold np.absolute in Lm; rewrite length_map in Lm.
  destruct (Nat.eq_dec (S msl) (length sr)) as [E|E]; [exfalso | lia].
  specialize (Hfirst (length sr - 2)%nat).
  rewrite !absolute_nth in Hfirst.
  replace msl with (length sr - 1)%nat in Hfirst by lia.
  rewrite L2 in Hfirst.
  assert (Qabs (nth (length sr - 1) sr 0) < Qabs (nth (length sr - 1) sr 0))
    by (apply Hfirst; lia).
  lra.
Qed.

(** X19.  On a grid and a velocity array of one length, the [K] either
    version returns is the magnitude of the forward difference quotient of
    the velocity at the returned point: the point is never the last one, so
    the duplicated endpoint value is never the one reported. *)
Theorem K_is_forward_difference (f : Flame) (sr : list Q) (p : nat) (K : Q) :
  length (grid f) = length (u f) ->
  ExtinctionStrainRate.computeStrainRates f = Ok (sr, p, K) \/
  TwinPremixedESR.computeStrainRates f = Ok (sr, p, K) ->
  (S p < length (u f))%nat /\
  K = Qabs ((nth (S p) (u f) 0 - nth p (u f) 0)
            / (nth (S p) (grid f) 0 - nth p (grid f) 0)).
Proof.
  intros E H.
  assert (Hd : derivative_float64 (grid f) (u f) = Ok sr /\ (S p < length sr)%nat
               /\ K = Qabs (nth p sr 0)).
  { destruct H as [H|H].
    - apply scan_computeStrainRates_inv in H as (Hd & Hs & ->).
      apply scan_while_inv in Hs as (_ & Lp & _); auto.
    - apply selection_inv in H as (Hd & -> & msl & mvp & _ & _ & _ & Lp & Lm).
      repeat split; auto; lia. }
  destruct Hd as (Hd & Lp & ->).
  destruct (derivative_length _ _ _ Hd) as (Ld & _).
  split; [lia|].
  destruct (derivative_nth _ _ _ p Hd E) as (_ & ->); [lia | reflexivity].
Qed.

Lemma K_is_forward_difference_witness :
  (S 1 < length (u profile6))%nat /\
  2 = Qabs ((nth 2 (u profile6) 0 - nth 1 (u profile6) 0)
            / (nth 2 (grid profile6) 0 - nth 1 (grid profile6) 0)).
Proof.
  apply (K_is_forward_difference profile6 [-1; -2; -1; 8; 0; 0] 1 2);
    [reflexivity | right; reflexivity].
Defined.

(** X20.  The version of src/flames/twinPremixedESR.ipynb needs four grid
    points: the index it returns leaves at least three points after it, and
    on a profile of fewer than four points, where [derivative] returns, it
    raises [ValueError].  The version of src/unnamed/part_000 returns on
    every such profile. *)
Theorem selection_needs_four_points (f : Flame) (sr : list Q) :
  derivative (Float64 (grid f)) (Float64 (u f)) = Ok (Float64 sr) ->
  (forall p K,
     TwinPremixedESR.computeStrainRates f = Ok (sr, p, K) ->
     (p + 4 <= length sr)%nat) /\
  ((length sr < 4)%nat ->
   TwinPremixedESR.computeStrainRates f = Raise ValueError /\
   exists p K, ExtinctionStrainRate.computeStrainRates f = Ok (sr, p, K)).
Proof.
  intros Hd; apply derivative_float64_Ok in Hd.
  assert (Hbound : forall p K,
             TwinPremixedESR.computeStrainRates f = Ok (sr, p, K) ->
             (p + 4 <= length sr)%nat).
  { intros p K H.
    apply selection_inv in H as (_ & _ & msl & mvp & Hmsl & _ & _ & Lp & _).
    pose proof (maxStrLocation_not_last _ _ _ _ Hd Hmsl); lia. }
  split; [exact Hbound|].
  intros L4; split.
  - destruct (selection_cases f sr Hd) as (msl & Hmsl & Lmsl & Z0 & P0).
    destruct msl as [|msl]; [apply Z0; reflexivity|].
    destruct P0 as (mvp & Hmvp & Lmvp & Z1 & P1); [lia|].
    destruct mvp as [|mvp]; [apply Z1; reflexivity|].
    destruct P1 as (p & _ & _ & Hp); [lia|].
    specialize (Hbound p _ Hp); lia.
  - destruct (scan_computeStrainRates_total f sr Hd) as (p & _ & Hp).
    eauto.
Qed.

Lemma selection_needs_four_points_witness :
  TwinPremixedESR.computeStrainRates
    (mkFlame [0; 1; 2] [3; 1; 2] [] [] [] []) = Raise ValueError /\
  exists p K,
    ExtinctionStrainRate.computeStrainRates
      (mkFlame [0; 1; 2] [3; 1; 2] [] [] [] []) = Ok ([-2; 1; 1], p, K).
Proof.
  apply (proj2 (selection_needs_four_points
                  (mkFlame [0; 1; 2] [3; 1; 2] [] [] [] []) [-2; 1; 1]
                  eq_refl)).
  simpl; lia.
Defined.
